(** * Orders screen (src/components/orders/orders.tsx)

    A shallow embedding of the stateful logic of the [Orders] component:
    the derived list of (productId, orderNumber) references, the product
    and rating batch loaders, the rating submission handler, the rating
    control shown per line item, the click handlers of an order card, the
    infinite-scroll observer callback and the three status mappings.

    Conventions.
    - Strings are [string]; a rating ([number] in the source) is an
      integer [Z], and JavaScript truthiness of a number is [_ ≠ 0].
    - [Record<string, number>] is a [gmap string Z] (own properties only).
    - An awaited promise is a [settled] value: fulfilled with a result or
      rejected; [Promise.all] rejects as soon as one member rejects.
    - Effects of a handler (toasts, calls to collaborators not defined in
      this file of the repository, console output) are appended to logs
      kept in the component state. *)

From stdpp Require Import gmap strings list fin_maps pretty.

Set Warnings "-clear-no-such-hyp".

Open Scope string_scope.

(** ** Data model *)

(** The fields of an order item and of an order that the logic below
    reads; the remaining fields (image, quantity, prices, payment details,
    time stamps) only feed the templates. *)
Record OrderItem := mkItem {
  productId : string;
  productName : string
}.

Record Order := mkOrder {
  id : string;
  orderNumber : string;
  status : string;
  items : list OrderItem
}.

(** The projection of a product record that the component relies on. *)
Record Product := mkProduct {
  product_id : string
}.

(** (productId, orderNumber) *)
Abbreviation ItemRef := (string * string)%type.

(** ** Promises *)

Inductive settled (A : Type) : Type :=
| Fulfilled (a : A)
| Rejected.
Arguments Fulfilled {A} a.
Arguments Rejected {A}.

(** [Promise.all]: the list of results when every member is fulfilled. *)
Fixpoint promise_all {A} (ps : list (settled A)) : settled (list A) :=
  match ps with
  | [] => Fulfilled []
  | Fulfilled a :: ps' =>
      match promise_all ps' with
      | Fulfilled l => Fulfilled (a :: l)
      | Rejected => Rejected
      end
  | Rejected :: _ => Rejected
  end.

(** [async (x) => { const r = await p; return f r }] *)
Definition then_ {A B} (f : A → B) (p : settled A) : settled B :=
  match p with
  | Fulfilled a => Fulfilled (f a)
  | Rejected => Rejected
  end.

(** ** Calls to collaborators and notifications *)

Inductive Call :=
| GetProductById (pid : string)
| GetUserProductRating (uid pid ord : string)
| UpdateProductRating (pid : string) (rating : Z) (uid ord : string)
| InvalidateQueries (key : list ItemRef)
| FetchUserOrders (uid : string)
| LoadMoreOrders (uid : string)
| RefreshOrders (uid : string)
| RefreshSingleOrder (orderId : string).

Global Instance Call_eq_dec : EqDecision Call.
Proof. solve_decision. Defined.

Inductive Toast :=
| ToastError (msg : string)
| ToastInfo (msg : string)
| ToastSuccess (msg : string).

Global Instance Toast_eq_dec : EqDecision Toast.
Proof. solve_decision. Defined.

(** ** The derived reference list (lines 63-68) *)

Definition allOrderItems (orders : list Order) : list ItemRef :=
  orders ≫= λ order,
    (λ item, (productId item, orderNumber order)) <$> items order.

(** The line items of all loaded orders, in rendering order. *)
Definition lineItems (orders : list Order) : list OrderItem :=
  orders ≫= items.

(** Number of members of [l] equal to [x]. *)
Definition occurrences `{EqDecision A} (x : A) (l : list A) : nat :=
  length (filter (λ y, y = x) l).

(** ** Product batch (lines 70-89) *)

(** The lookups [queryFn] issues: [allOrderItems.map(({productId}) =>
    getProductById(productId))]; none for an empty list. *)
Definition productLookups (refs : list ItemRef) : list Call :=
  if bool_decide (length refs = 0) then []
  else (λ '(pid, _), GetProductById pid) <$> refs.

Section Loaders.
Context (getProductById : string → settled (option Product)).

Definition productPromises (refs : list ItemRef)
  : list (settled (option Product)) :=
  (λ '(pid, _), getProductById pid) <$> refs.

(** [products.filter((product) => product !== null)] *)
Definition nonNull {A} (l : list (option A)) : list A := omap (λ x, x) l.

Definition queryFn (refs : list ItemRef) : settled (list Product) :=
  if bool_decide (length refs = 0) then Fulfilled []
  else then_ nonNull (promise_all (productPromises refs)).

(** [data: products = []] once the query has settled: the query only
    runs when [enabled], and a query that failed has no data. *)
Definition products (refs : list ItemRef) : list Product :=
  if bool_decide (0 < length refs) then
    match queryFn refs with
    | Fulfilled ps => ps
    | Rejected => []
    end
  else [].

(** [new Map(products.map((product) => [product.id, product]))]: a later
    entry replaces an earlier one with the same id. *)
Definition productMap (ps : list Product) : gmap string Product :=
  foldl (λ m p, <[product_id p := p]> m) ∅ ps.
End Loaders.

(** ** Component state *)

(** [productRatingLoading]: the pair whose submission is shown as saving
    ([loadingProductId] is its [productId] field). *)
Record Loading := mkLoading {
  orderID : string;
  loadingProductId : string
}.

Definition noLoading : Loading := mkLoading "" "".

Record State := mkState {
  userRatings : gmap string Z;
  productRatingLoading : Loading;
  selectedOrderId : option string;
  isTrackingOpen : bool;
  toasts : list Toast;
  calls : list Call;
  console : list string
}.

Definition initialState : State :=
  mkState ∅ noLoading None false [] [] [].

(** The React state of the component, as opposed to the logs. *)
Definition reactState (s : State)
  : gmap string Z * Loading * option string * bool :=
  (userRatings s, productRatingLoading s, selectedOrderId s, isTrackingOpen s).

Definition setUserRatings (f : gmap string Z → gmap string Z) (s : State) : State :=
  mkState (f (userRatings s)) (productRatingLoading s) (selectedOrderId s)
          (isTrackingOpen s) (toasts s) (calls s) (console s).

Definition setProductRatingLoading (l : Loading) (s : State) : State :=
  mkState (userRatings s) l (selectedOrderId s)
          (isTrackingOpen s) (toasts s) (calls s) (console s).

Definition setSelectedOrderId (o : string) (s : State) : State :=
  mkState (userRatings s) (productRatingLoading s) (Some o)
          (isTrackingOpen s) (toasts s) (calls s) (console s).

Definition setIsTrackingOpen (b : bool) (s : State) : State :=
  mkState (userRatings s) (productRatingLoading s) (selectedOrderId s)
          b (toasts s) (calls s) (console s).

Definition toast (t : Toast) (s : State) : State :=
  mkState (userRatings s) (productRatingLoading s) (selectedOrderId s)
          (isTrackingOpen s) (toasts s ++ [t]) (calls s) (console s).

Definition issue (cs : list Call) (s : State) : State :=
  mkState (userRatings s) (productRatingLoading s) (selectedOrderId s)
          (isTrackingOpen s) (toasts s) (calls s ++ cs) (console s).

Definition logConsole (msg : string) (s : State) : State :=
  mkState (userRatings s) (productRatingLoading s) (selectedOrderId s)
          (isTrackingOpen s) (toasts s) (calls s) (console s ++ [msg]).

(** [user?.uid], as a condition: the uid when a user is signed in and the
    uid is a non-empty string. *)
Definition uidOf (user : option string) : option string :=
  match user with
  | Some u => if bool_decide (u = "") then None else Some u
  | None => None
  end.

(** [`${productId}_${orderNumber}`] *)
Definition ratingKey (pid ord : string) : string := pid ++ "_" ++ ord.

(** Truthiness of [userRatings[ratingKey]]. *)
Definition truthy (v : option Z) : bool :=
  match v with
  | Some r => bool_decide (r ≠ 0%Z)
  | None => false
  end.

(** [userRating || 0] *)
Definition orZero (v : option Z) : Z :=
  match v with
  | Some r => r
  | None => 0%Z
  end.

(** ** Rating batch (lines 92-124) *)

Section RatingBatch.
Context (getUserProductRating : string → string → string → settled (option Z)).

Definition ratingLookups (uid : string) (refs : list ItemRef) : list Call :=
  (λ '(pid, ord), GetUserProductRating uid pid ord) <$> refs.

Definition ratingPromises (uid : string) (refs : list ItemRef)
  : list (settled (string * string * option Z)) :=
  (λ '(pid, ord),
    then_ (λ r, (pid, ord, r)) (getUserProductRating uid pid ord)) <$> refs.

(** The body of the [forEach] of lines 109-114, and the loop. *)
Definition insertRating (m : gmap string Z) (e : string * string * option Z)
  : gmap string Z :=
  let '(pid, ord, r) := e in
  match r with
  | Some v => <[ratingKey pid ord := v]> m
  | None => m
  end.

Definition ratingsMap (ratings : list (string * string * option Z))
  : gmap string Z :=
  foldl insertRating ∅ ratings.

(** One run of [loadUserRatings]; [s] is the state at the time the batch
    settles. *)
Definition loadUserRatings (user : option string) (refs : list ItemRef)
    (s : State) : State :=
  match uidOf user with
  | None => s
  | Some uid =>
      if bool_decide (length refs = 0) then s
      else
        let s := issue (ratingLookups uid refs) s in
        match promise_all (ratingPromises uid refs) with
        | Fulfilled ratings => setUserRatings (λ _, ratingsMap ratings) s
        | Rejected => logConsole "Error loading user ratings:" s
        end
  end.
End RatingBatch.

(** ** Rating submission (lines 182-252) *)

Record Event := mkEvent {
  propagationStopped : bool;
  defaultPrevented : bool
}.

Definition freshEvent : Event := mkEvent false false.
Definition stopPropagation (e : Event) : Event := mkEvent true (defaultPrevented e).
Definition preventDefault (e : Event) : Event := mkEvent (propagationStopped e) true.

Definition dquote : string := String (Ascii.ascii_of_nat 34) EmptyString.

Definition loginMessage : string := "Please login to rate products".

Definition alreadyRatedMessage (name : string) (existing : option Z) : string :=
  "You already rated " ++ dquote ++ name ++ dquote ++ " with "
    ++ pretty (orZero existing) ++ " stars".

Definition thanksMessage (name : string) (rating : Z) : string :=
  "Thanks for rating " ++ dquote ++ name ++ dquote ++ " with "
    ++ pretty rating ++ " star" ++ (if bool_decide (rating ≠ 1%Z) then "s" else "") ++ "!".

Definition failedMessage (name : string) : string :=
  "Failed to rate " ++ dquote ++ name ++ dquote ++ ". Please try again.".

(** [sub] occurs inside [msg]. *)
Definition contains (sub msg : string) : Prop :=
  ∃ pre post, msg = pre ++ sub ++ post.

(** What a running submission keeps in its closure while it awaits the
    remote write. *)
Record Submission := mkSubmission {
  sub_productId : string;
  sub_rating : Z;
  sub_productName : string;
  sub_orderNumber : string;
  sub_uid : string;
  sub_refs : list ItemRef
}.

Definition sub_ratingKey (p : Submission) : string :=
  ratingKey (sub_productId p) (sub_orderNumber p).

(** The handler up to [await updateProductRating(...)]: the two guards,
    the in-flight marker, the optimistic write and the remote call. *)
Definition handleProductRating_begin (user : option string) (refs : list ItemRef)
    (pid : string) (rating : Z) (ev : Event) (name ord : string) (s : State)
  : Event * State * option Submission :=
  let s := logConsole ("Rating product " ++ name ++ " with " ++ pretty rating ++ " stars") s in
  let ev := preventDefault (stopPropagation ev) in
  match uidOf user with
  | None => (ev, toast (ToastError loginMessage) s, None)
  | Some uid =>
      let key := ratingKey pid ord in
      if truthy (userRatings s !! key) then
        (ev, toast (ToastInfo (alreadyRatedMessage name (userRatings s !! key))) s, None)
      else
        let s := setProductRatingLoading (mkLoading ord pid) s in
        let s := setUserRatings (λ prev, <[key := rating]> prev) s in
        let s := issue [UpdateProductRating pid rating uid ord] s in
        (ev, s, Some (mkSubmission pid rating name ord uid refs))
  end.

(** The handler from the outcome of the remote write on: the rest of
    [try], or [catch], and then [finally]. [invalidateQueries] resolves. *)
Definition handleProductRating_settle (p : Submission) (written : settled unit)
    (s : State) : State :=
  let s :=
    match written with
    | Fulfilled _ =>
        let s := toast (ToastSuccess (thanksMessage (sub_productName p) (sub_rating p))) s in
        issue [InvalidateQueries (sub_refs p)] s
    | Rejected =>
        let s := logConsole "Error rating product:" s in
        let s := setUserRatings (λ prev, delete (sub_ratingKey p) prev) s in
        toast (ToastError (failedMessage (sub_productName p))) s
    end in
  setProductRatingLoading noLoading s.

(** A submission that runs to its end with nothing else in between. *)
Definition handleProductRating (user : option string) (refs : list ItemRef)
    (pid : string) (rating : Z) (ev : Event) (name ord : string)
    (written : settled unit) (s : State) : Event * State :=
  match handleProductRating_begin user refs pid rating ev name ord s with
  | (ev', s', Some p) => (ev', handleProductRating_settle p written s')
  | (ev', s', None) => (ev', s')
  end.

(** ** The rating section of a line item (lines 531-609) *)

(** The props handed to [StarRating]. [onRatingChange] carries what the
    arrow function passes on to [handleProductRating]: the item's product
    id and name and the order number; [None] stands for [undefined]. *)
Record StarRatingProps := mkStarRatingProps {
  rating : Z;
  readonly : bool;
  disabled : bool;
  onRatingChange : option (string * string * string)
}.

Record RatingSection := mkRatingSection {
  stars : StarRatingProps;
  savingShown : bool;
  ratedCaption : option Z
}.

(** [productRatingLoading.productId === item.productId &&
     order.orderNumber === productRatingLoading.orderID] *)
Definition isSaving (l : Loading) (order : Order) (item : OrderItem) : bool :=
  bool_decide (loadingProductId l = productId item)
  && bool_decide (orderNumber order = orderID l).

(** [None] when the section is not rendered. *)
Definition ratingSection (pm : gmap string Product) (s : State)
    (order : Order) (item : OrderItem) : option RatingSection :=
  let product := pm !! productId item in
  let userRating := userRatings s !! ratingKey (productId item) (orderNumber order) in
  match product with
  | Some _ =>
      if bool_decide (status order = "delivered") then
        Some (mkRatingSection
          (mkStarRatingProps
             (orZero userRating)
             (truthy userRating)
             (isSaving (productRatingLoading s) order item)
             (if truthy userRating then None
              else Some (productId item, productName item, orderNumber order)))
          (isSaving (productRatingLoading s) order item)
          (if truthy userRating then userRating else None))
      else None
  | None => None
  end.

(** Modelled from the spec: the [StarRating] component
    (components/ui/star-rating) is not part of this file. Its control is
    interactive when it accepts a tap: the section is rendered and the
    props make it neither read-only nor disabled and give it a change
    handler. *)
Definition interactive (pm : gmap string Product) (s : State)
    (order : Order) (item : OrderItem) : bool :=
  match ratingSection pm s order item with
  | Some sec =>
      negb (readonly (stars sec)) && negb (disabled (stars sec))
      && bool_decide (is_Some (onRatingChange (stars sec)))
  | None => false
  end.

(** The "Saving rating..." line is on screen for this item. *)
Definition savingIndicator (pm : gmap string Product) (s : State)
    (order : Order) (item : OrderItem) : bool :=
  match ratingSection pm s order item with
  | Some sec => savingShown sec
  | None => false
  end.

(** The rendered line items, each with its order. *)
Definition renderedItems (orders : list Order) : list (Order * OrderItem) :=
  orders ≫= λ order, (λ item, (order, item)) <$> items order.

Definition refOf (oi : Order * OrderItem) : ItemRef :=
  (productId oi.2, orderNumber oi.1).

(** The rendered line items that show the indicator. *)
Definition savingItems (pm : gmap string Product) (s : State)
    (orders : list Order) : list (Order * OrderItem) :=
  filter (λ oi, savingIndicator pm s oi.1 oi.2 = true) (renderedItems orders).

(** ** Clicks on an order card (lines 315-325, 490-527, 565-568, 670-673) *)

Definition handleOrderClick (orderId : string) (s : State) : State :=
  setIsTrackingOpen true (setSelectedOrderId orderId s).

Definition Handler : Type := Event → State → Event * State.

Definition handleTrackOrderClick (orderId : string) : Handler :=
  λ e s, (stopPropagation e, handleOrderClick orderId s).

(** [onClick] of the refresh button of a card. *)
Definition refreshOnClick (orderId : string) : Handler :=
  λ e s, (stopPropagation e, issue [RefreshSingleOrder orderId] s).

(** [onClick] of the wrapper around the rating section. *)
Definition ratingWrapperOnClick : Handler :=
  λ e s, (stopPropagation e, s).

(** Where a tap lands inside the card of an order. [TapSummary] is any
    place whose own element has no handler: the status icon, the order
    number and date, the badge, an item row outside its rating section,
    the total, the payment line and the delivery line. *)
Inductive CardTarget :=
| TapSummary
| TapRefresh
| TapRatingSection
| TapTrackRow.

(** The [Card] element itself is given no [onClick]. *)
Definition cardOnClick (order : Order) : list Handler := [].

(** The click handlers from the tapped element up to the card. *)
Definition handlersOnPath (order : Order) (t : CardTarget) : list Handler :=
  match t with
  | TapSummary => []
  | TapRefresh => [refreshOnClick (id order)]
  | TapRatingSection => [ratingWrapperOnClick]
  | TapTrackRow => [handleTrackOrderClick (id order)]
  end ++ cardOnClick order.

(** A click bubbles until a handler stops it. *)
Fixpoint dispatch (hs : list Handler) (e : Event) (s : State) : Event * State :=
  match hs with
  | [] => (e, s)
  | h :: hs' =>
      let '(e', s') := h e s in
      if propagationStopped e' then (e', s') else dispatch hs' e' s'
  end.

Definition tap (order : Order) (t : CardTarget) (s : State) : Event * State :=
  dispatch (handlersOnPath order t) freshEvent s.

(** ** Infinite scroll (lines 134-164) *)

(** The values the observer callback closes over. *)
Record Pagination := mkPagination {
  hasMore : bool;
  loadingMore : bool;
  loading : bool;
  user : option string
}.

Record Entry := mkEntry {
  isIntersecting : bool
}.

(** The callback given to [IntersectionObserver]: the calls it makes;
    [None] when [entries[0]] is undefined and reading it throws. *)
Definition observerCallback (v : Pagination) (entries : list Entry)
  : option (list Call) :=
  match entries with
  | [] => None
  | target :: _ =>
      Some (if isIntersecting target && hasMore v && negb (loadingMore v)
               && negb (loading v)
            then match uidOf (user v) with
                 | Some uid => [LoadMoreOrders uid]
                 | None => []
                 end
            else [])
  end.

(** A run of the page: the notifications delivered to the callback, each
    with the values current when it is delivered. *)
Definition Notification : Type := Pagination * list Entry.

Definition notificationCalls (n : Notification) : list Call :=
  default [] (observerCallback n.1 n.2).

Definition traceCalls (tr : list Notification) : list Call :=
  tr ≫= notificationCalls.

(** What a notification reports about the sentinel. *)
Definition reportsVisible (n : Notification) : bool :=
  match n.2 with
  | target :: _ => isIntersecting target
  | [] => false
  end.

(** Number of changes from not visible to visible along a run that
    starts from visibility [prev]. *)
Fixpoint risingEdges (prev : bool) (vis : list bool) : nat :=
  match vis with
  | [] => 0
  | v :: vis' => (if negb prev && v then 1 else 0) + risingEdges v vis'
  end.

(** The condition tested by the callback, on the closed-over values. *)
Definition loadable (v : Pagination) : bool :=
  hasMore v && negb (loadingMore v) && negb (loading v)
  && bool_decide (is_Some (uidOf (user v))).

(** The notifications of a run at which the callback's condition holds. *)
Definition firing (n : Notification) : bool := reportsVisible n && loadable n.1.

(** ** Status presentation (lines 254-313) *)

Inductive Glyph := CheckCircle | Truck | Package | Clock | XCircle.

Record Icon := mkIcon {
  glyph : Glyph;
  className : string;
  size : nat
}.

Definition getStatusIcon (status : string) : Icon :=
  if bool_decide (status = "delivered") then mkIcon CheckCircle "text-success" 20
  else if bool_decide (status = "out_for_delivery") then mkIcon Truck "text-info" 20
  else if bool_decide (status = "preparing") then mkIcon Package "text-warning" 20
  else if bool_decide (status = "confirmed") then mkIcon Clock "text-info" 20
  else if bool_decide (status = "cancelled") then mkIcon XCircle "text-destructive" 20
  else if bool_decide (status = "refunded") then mkIcon XCircle "text-muted-foreground" 20
  else mkIcon Clock "text-muted-foreground" 20.

Definition getStatusVariant (status : string) : string :=
  if bool_decide (status = "delivered") then "default"
  else if bool_decide (status = "out_for_delivery") then "secondary"
  else if bool_decide (status = "preparing") then "outline"
  else if bool_decide (status = "confirmed") then "secondary"
  else if bool_decide (status = "cancelled") then "destructive"
  else if bool_decide (status = "refunded") then "destructive"
  else "outline".

Definition getStatusText (status : string) : string :=
  if bool_decide (status = "delivered") then "Delivered"
  else if bool_decide (status = "out_for_delivery") then "Out for Delivery"
  else if bool_decide (status = "preparing") then "Preparing"
  else if bool_decide (status = "confirmed") then "Confirmed"
  else if bool_decide (status = "cancelled") then "Cancelled"
  else if bool_decide (status = "placed") then "Order Placed"
  else if bool_decide (status = "refunded") then "Refunded"
  else status.

(** The fallbacks of [getStatusIcon] and [getStatusVariant]. *)
Definition defaultIcon : Icon := mkIcon Clock "text-muted-foreground" 20.
Definition defaultVariant : string := "outline".

(** The statuses with a [case] of their own in the icon and the variant
    switch, and the statuses an order can have. *)
Definition sixStatuses : list string :=
  ["delivered"; "out_for_delivery"; "preparing"; "confirmed"; "cancelled"; "refunded"].

Definition sevenStatuses : list string := "placed" :: sixStatuses.

(** ** Sample data *)

Definition sampleTwice : list Order :=
  [mkOrder "o1" "N-1" "delivered" [mkItem "p" "Tea"; mkItem "p" "Tea"]].

Definition sampleDistinct : list Order :=
  [mkOrder "o1" "N-1" "delivered" [mkItem "p" "Tea"; mkItem "q" "Rice"];
   mkOrder "o2" "N-2" "placed" [mkItem "p" "Tea"]].

Definition sampleRefs : list ItemRef := [("p", "N-1"); ("q", "N-1")].

(** A backend whose lookups about product "q" reject and whose other
    lookups answer. *)
Definition sampleGetRating (uid pid ord : string) : settled (option Z) :=
  if bool_decide (pid = "q") then Rejected else Fulfilled (Some 5%Z).

Definition sampleGetProduct (pid : string) : settled (option Product) :=
  if bool_decide (pid = "q") then Rejected else Fulfilled (Some (mkProduct pid)).

(** A backend that answers every lookup, with no rating for "q". *)
Definition sampleGetRatingNull (uid pid ord : string) : settled (option Z) :=
  if bool_decide (pid = "q") then Fulfilled None else Fulfilled (Some 5%Z).

Definition sampleGetProductNull (pid : string) : settled (option Product) :=
  if bool_decide (pid = "q") then Fulfilled None else Fulfilled (Some (mkProduct pid)).

Definition sampleRated : State :=
  mkState {[ ratingKey "p" "N-1" := 4%Z ]} noLoading None false [] [] [].

(** The state after user "u" rated product "p" of order "N-1" with 4
    stars and the remote write succeeded. *)
Definition sampleAfterSuccess : State :=
  (handleProductRating (Some "u") [("p", "N-1")] "p" 4%Z freshEvent "Tea" "N-1"
     (Fulfilled ()) initialState).2.


Definition sampleGetRatingNone (uid pid ord : string) : settled (option Z) :=
  Fulfilled None.

Definition sampleOrder : Order :=
  mkOrder "o1" "N-1" "delivered" [mkItem "p" "Tea"].

Definition sampleItem : OrderItem := mkItem "p" "Tea".

Definition sampleProducts : gmap string Product := {[ "p" := mkProduct "p" ]}.

(** The state while the rating of product "p" of order "N-1" is saved:
    the submission has started and the remote write is awaited. *)
Definition sampleSaving : State :=
  (handleProductRating_begin (Some "u") [("p", "N-1"); ("p", "N-1")] "p" 4%Z
     freshEvent "Tea" "N-1" initialState).1.2.

Definition sampleLoadable : Pagination := mkPagination true false false (Some "u").

Definition sampleLoadingMore : Pagination := mkPagination true true false (Some "u").

(** The sentinel stays in view: it is reported visible when it first
    shows, again while the page that this triggers is loading, and again
    once that page has arrived. *)
Definition sampleTrace : list Notification :=
  [(sampleLoadable, [mkEntry true]);
   (sampleLoadingMore, [mkEntry true]);
   (sampleLoadable, [mkEntry true])].


(** ** The order store as the component reads it (lines 41-54) *)

(** [page] holds [hasMore], [loadingMore], [loading] and the signed-in
    user; [error] is [None] for [null]. *)
Record View := mkView {
  orders : list Order;
  page : Pagination;
  refreshing : bool;
  totalOrders : Z;
  error : option string
}.

(** Truthiness of a string that may be [null]. *)
Definition truthyStr (e : option string) : bool :=
  match e with
  | Some m => negb (bool_decide (m = ""))
  | None => false
  end.

(** [e || d] *)
Definition strOr (e : option string) (d : string) : string :=
  if truthyStr e then default d e else d.


(** ** What the content area shows (lines 471-731) *)

Definition fallbackMessage : string := "Failed to load orders. Please try again.".

(** [ErrorComponent] carries the text of its paragraph and the [disabled]
    flag of its "Try Again" button; [Skeletons] the number of skeleton
    cards. *)
Inductive Content :=
| ErrorComponent (message : string) (tryAgainDisabled : bool)
| Skeletons (n : nat)
| EmptyState
| OrderList.

Definition content (v : View) : Content :=
  if truthyStr (error v) && negb (loading (page v)) then
    ErrorComponent (strOr (error v) fallbackMessage) (refreshing v)
  else if loading (page v) && bool_decide (length (orders v) = 0) then Skeletons 5
  else if bool_decide (length (orders v) = 0) then EmptyState
  else OrderList.

(** [disabled] of the refresh button of the header (line 459). *)
Definition headerRefreshDisabled (v : View) : bool :=
  refreshing v || loading (page v).

(** The two blocks below the cards of the list (lines 700-729). *)
Inductive Sentinel := LoadingMoreText | ScrollPrompt.

Definition loadMoreTrigger (v : View) : option Sentinel :=
  if hasMore (page v)
  then Some (if loadingMore (page v) then LoadingMoreText else ScrollPrompt)
  else None.

Definition endOfResults (v : View) : bool :=
  negb (hasMore (page v)) && bool_decide (0 < length (orders v)).

(** Both blocks live inside the list: the sentinel that is on screen, if
    any, and whether the end marker is. *)
Definition sentinelShown (v : View) : option Sentinel :=
  match content v with
  | OrderList => loadMoreTrigger v
  | _ => None
  end.

Definition endMarkerShown (v : View) : bool :=
  match content v with
  | OrderList => endOfResults v
  | _ => false
  end.

(** ** Payment line, delivery line and track row of a card (lines 486-487,
    632-694) *)





Definition underscore : Ascii.ascii := Ascii.ascii_of_nat 95.

(** [s.replace(c, r)] for a one-character pattern: only the first
    occurrence is replaced. *)
Fixpoint replaceFirst (c : Ascii.ascii) (r : string) (s : string) : string :=
  match s with
  | EmptyString => EmptyString
  | String x s' =>
      if bool_decide (x = c) then r ++ s' else String x (replaceFirst c r s')
  end.

(** [order.paymentMethod.replace("_", " ")] *)
Definition paymentMethodText (paymentMethod : string) : string :=
  replaceFirst underscore " " paymentMethod.

Fixpoint countChar (c : Ascii.ascii) (s : string) : nat :=
  match s with
  | EmptyString => 0
  | String x s' => (if bool_decide (x = c) then 1 else 0) + countChar c s'
  end.

(** [order.estimatedDeliveryTime && order.status !== "delivered"]; a
    [Date] that is present is truthy. *)
Definition deliveryInfoShown (hasEstimate : bool) (st : string) : bool :=
  hasEstimate && negb (bool_decide (st = "delivered")).

(** The text of the track row (lines 675-691). *)
Definition trackRowLabel (st : string) : string :=
  if bool_decide (st = "delivered") then "Order Delivered"
  else if bool_decide (st = "cancelled") || bool_decide (st = "refunded")
  then getStatusText st
  else "Track Order".


(** A rating map in which a lookup has stored the value 0 for the pair. *)
Definition sampleZero : State :=
  mkState {[ ratingKey "p" "N-1" := 0%Z ]} noLoading None false [] [] [].

(** * Properties *)

(** ** The reference list and the product lookups *)

Lemma productLookups_fmap (refs : list ItemRef) :
  productLookups refs = (λ r, GetProductById r.1) <$> refs.
Proof.
  unfold productLookups. case_bool_decide as Hlen.
  - by destruct refs.
  - apply list_fmap_ext. by intros ? [??] ?.
Qed.

Lemma allOrderItems_lineItems (orders : list Order) :
  fst <$> allOrderItems orders = productId <$> lineItems orders.
Proof.
  unfold allOrderItems, lineItems.
  induction orders as [|o orders IH]; [done|].
  rewrite !bind_cons, !fmap_app, IH. f_equal.
  rewrite <- list_fmap_compose. by apply list_fmap_ext.
Qed.

Lemma occurrences_fmap_inj `{EqDecision A, EqDecision B} (f : A → B)
    `{!Inj (=) (=) f} (x : A) (l : list A) :
  occurrences (f x) (f <$> l) = occurrences x l.
Proof.
  unfold occurrences. induction l as [|y l IH]; [done|].
  rewrite fmap_cons, !filter_cons.
  destruct (decide (y = x)) as [->|Hne].
  - rewrite decide_True by done. simpl. by rewrite IH.
  - rewrite decide_False by (intros ?%(inj f); done). done.
Qed.

Lemma occurrences_pos `{EqDecision A} (x : A) (l : list A) :
  x ∈ l → (1 ≤ occurrences x l)%nat.
Proof.
  unfold occurrences. induction 1 as [x l|x y l _ IH].
  - rewrite filter_cons, decide_True by done. simpl. lia.
  - rewrite filter_cons. case_decide; simpl; lia.
Qed.

Global Instance GetProductById_inj : Inj (=) (=) GetProductById.
Proof. by intros ?? [= ->]. Qed.

Lemma allOrderItems_NoDup (orders : list Order) :
  NoDup (orderNumber <$> orders) →
  (∀ o, o ∈ orders → NoDup (productId <$> items o)) →
  NoDup (allOrderItems orders).
Proof.
  unfold allOrderItems.
  induction orders as [|o orders IH]; intros Hnum Hitems.
  - constructor.
  - rewrite fmap_cons in Hnum. apply NoDup_cons in Hnum as [Hfresh Hnum].
    rewrite bind_cons. apply NoDup_app. split_and!.
    + apply (NoDup_fmap_1 fst). rewrite <- list_fmap_compose.
      apply (Hitems o). by left.
    + intros [pid ord] [it [[= -> ->] _]]%list_elem_of_fmap
        [o' [[it' [[= _ Heq] _]]%list_elem_of_fmap Ho']]%list_elem_of_bind.
      apply Hfresh. rewrite Heq. by apply list_elem_of_fmap_2.
    + apply IH; [done|]. intros o' Ho'. apply Hitems. by right.
Qed.

(** C1, as stated, fails: the lookups are not deduplicated. A product
    bought in two orders is looked up twice; and an order that carries the
    same product in two line items makes [queryFn] look it up twice and
    puts the pair twice into the reference list. *)
Lemma C1_duplicate_line_items :
  productLookups (allOrderItems sampleDistinct)
    = [GetProductById "p"; GetProductById "q"; GetProductById "p"]
  ∧ occurrences (GetProductById "p") (productLookups (allOrderItems sampleDistinct)) = 2
  ∧ allOrderItems sampleTwice = [("p", "N-1"); ("p", "N-1")]
  ∧ productLookups (allOrderItems sampleTwice) = [GetProductById "p"; GetProductById "p"]
  ∧ ¬ NoDup (allOrderItems sampleTwice).
Proof.
  split_and!; try reflexivity.
  intros [Hnotin _]%NoDup_cons. apply Hnotin. by left.
Qed.

(** C1, amended: for every loaded order list, the product batch issues
    one lookup per line item of the loaded orders, in order, without
    removing duplicates, so a product id is looked up as many times as
    line items carry it (at least once when it occurs); the reference list
    has one entry per line item, in the same order; and it is free of
    duplicates when the loaded orders have pairwise distinct order numbers
    and no order carries the same product id twice. *)
Theorem C1_one_lookup_per_line_item (orders : list Order) :
  productLookups (allOrderItems orders)
    = (λ item, GetProductById (productId item)) <$> lineItems orders
  ∧ (∀ pid, occurrences (GetProductById pid) (productLookups (allOrderItems orders))
            = occurrences pid (productId <$> lineItems orders))
  ∧ (∀ item, item ∈ lineItems orders →
       (1 ≤ occurrences (GetProductById (productId item))
              (productLookups (allOrderItems orders)))%nat)
  ∧ length (allOrderItems orders) = length (lineItems orders)
  ∧ fst <$> allOrderItems orders = productId <$> lineItems orders
  ∧ (NoDup (orderNumber <$> orders) →
     (∀ o, o ∈ orders → NoDup (productId <$> items o)) →
     NoDup (allOrderItems orders)).
Proof.
  assert (productLookups (allOrderItems orders)
          = GetProductById <$> (productId <$> lineItems orders)) as Heq.
  { rewrite productLookups_fmap, <- allOrderItems_lineItems.
    by rewrite <- list_fmap_compose. }
  split_and!.
  - by rewrite Heq, <- list_fmap_compose.
  - intros pid. rewrite Heq. apply occurrences_fmap_inj; apply _.
  - intros item Hin. rewrite Heq, occurrences_fmap_inj by apply _.
    apply occurrences_pos. by apply list_elem_of_fmap_2.
  - rewrite <- (length_fmap fst (allOrderItems orders)), allOrderItems_lineItems.
    by rewrite length_fmap.
  - apply allOrderItems_lineItems.
  - apply allOrderItems_NoDup.
Qed.

Lemma C1_one_lookup_per_line_item_witness :
  productLookups (allOrderItems sampleTwice) = [GetProductById "p"; GetProductById "p"]
  ∧ productLookups (allOrderItems sampleDistinct)
    = [GetProductById "p"; GetProductById "q"; GetProductById "p"]
  ∧ NoDup (allOrderItems sampleDistinct).
Proof.
  assert (NoDup (orderNumber <$> sampleDistinct)) as Hnum.
  { apply (bool_decide_unpack (NoDup (orderNumber <$> sampleDistinct))).
    vm_compute. exact I. }
  assert (∀ o, o ∈ sampleDistinct → NoDup (productId <$> items o)) as Hitems.
  { apply Forall_forall. repeat constructor; simpl; set_solver. }
  destruct (C1_one_lookup_per_line_item sampleTwice) as (Htwice & _).
  destruct (C1_one_lookup_per_line_item sampleDistinct)
    as (Hcalls & _ & _ & _ & _ & Hnodup).
  split_and!; [exact Htwice | exact Hcalls | exact (Hnodup Hnum Hitems)].
Defined.

(** ** Promises and the two batches *)

Lemma promise_all_Fulfilled {A} (ps : list (settled A)) (l : list A) :
  promise_all ps = Fulfilled l ↔ ps = Fulfilled <$> l.
Proof.
  revert l. induction ps as [|[a|] ps IH]; intros l; simpl.
  - split; [intros [= <-]; done|]. by destruct l.
  - destruct (promise_all ps) as [l'|] eqn:Hps.
    + split.
      * intros [= <-]. rewrite fmap_cons. f_equal. by apply IH.
      * destruct l as [|b l]; [done|]. rewrite fmap_cons. intros [= -> Hl].
        apply IH in Hl. by simplify_eq.
    + split; [done|]. destruct l as [|b l]; [done|]. rewrite fmap_cons.
      intros [= -> Hl]. by apply IH in Hl.
  - split; [done|]. by destruct l.
Qed.

Lemma promise_all_Rejected {A} (ps : list (settled A)) :
  promise_all ps = Rejected ↔ Rejected ∈ ps.
Proof.
  induction ps as [|[a|] ps IH]; simpl.
  - split; [done|]. by intros ?%elem_of_nil.
  - rewrite elem_of_cons. destruct (promise_all ps).
    + split; [done|]. intros [?|Hin]; [done|]. by apply IH in Hin.
    + split; [|done]. intros _. right. by apply IH.
  - split; [|done]. intros _. by left.
Qed.

Lemma promise_all_fmap_elem {A B} (f : A → settled B) (l : list A) (rs : list B) :
  promise_all (f <$> l) = Fulfilled rs →
  ∀ r, r ∈ rs ↔ ∃ x, x ∈ l ∧ f x = Fulfilled r.
Proof.
  intros Hall%promise_all_Fulfilled r. split.
  - intros Hr. apply (list_elem_of_fmap_2 Fulfilled) in Hr.
    rewrite <- Hall in Hr. apply list_elem_of_fmap in Hr as (x & Hx & Hin). eauto.
  - intros (x & Hin & Hx). apply (list_elem_of_fmap_2 f) in Hin.
    rewrite Hall, Hx in Hin. apply list_elem_of_fmap in Hin as (r' & [= ->] & ?). done.
Qed.

Lemma nonNull_elem {A} (l : list (option A)) (x : A) :
  x ∈ nonNull l ↔ Some x ∈ l.
Proof.
  unfold nonNull. rewrite list_elem_of_omap. split.
  - by intros (o & Hin & ->).
  - intros Hin. by exists (Some x).
Qed.

Lemma productMap_foldl (ps : list Product) (m : gmap string Product) (k : string) :
  is_Some (foldl (λ m p, <[product_id p := p]> m) m ps !! k)
  ↔ is_Some (m !! k) ∨ k ∈ product_id <$> ps.
Proof.
  revert m. induction ps as [|p ps IH]; intros m; simpl.
  - rewrite elem_of_nil. tauto.
  - rewrite IH, elem_of_cons, lookup_insert_is_Some. 
    destruct (decide (product_id p = k)); naive_solver.
Qed.

Lemma productMap_is_Some (ps : list Product) (k : string) :
  is_Some (productMap ps !! k) ↔ k ∈ product_id <$> ps.
Proof.
  unfold productMap. rewrite productMap_foldl, lookup_empty.
  split; [intros [[? [=]]|?]; done | by right].
Qed.

Lemma foldl_insertRating_Some rs (m : gmap string Z) (k : string) (v : Z) :
  foldl insertRating m rs !! k = Some v →
  m !! k = Some v ∨ ∃ pid ord, (pid, ord, Some v) ∈ rs ∧ k = ratingKey pid ord.
Proof.
  revert m. induction rs as [|[[pid ord] r] rs IH]; intros m; simpl; [by left|].
  intros [Hm|(pid' & ord' & Hin & ->)]%IH.
  - destruct r as [v'|]; [|by left].
    destruct (decide (ratingKey pid ord = k)) as [<-|Hne].
    + rewrite lookup_insert_eq in Hm. simplify_eq. right. exists pid, ord.
      split; [by left|done].
    + rewrite lookup_insert_ne in Hm by done. by left.
  - right. exists pid', ord'. split; [by right|done].
Qed.

Lemma foldl_insertRating_is_Some rs (m : gmap string Z) (k : string) :
  is_Some (m !! k) ∨ (∃ pid ord v, (pid, ord, Some v) ∈ rs ∧ k = ratingKey pid ord) →
  is_Some (foldl insertRating m rs !! k).
Proof.
  revert m. induction rs as [|[[pid ord] r] rs IH]; intros m; simpl.
  - intros [?|(? & ? & ? & []%elem_of_nil & _)]. done.
  - intros [Hm|(pid' & ord' & v & [Heq|Hin]%elem_of_cons & ->)]; apply IH.
    + left. destruct r; [|done]. apply lookup_insert_is_Some.
      destruct (decide (ratingKey pid ord = k)); auto.
    + simplify_eq. left. by rewrite lookup_insert_eq.
    + right. eauto.
Qed.

Section BatchFacts.
Context (getP : string → settled (option Product)).
Context (getR : string → string → string → settled (option Z)).

Lemma ratingPromises_results uid refs rs :
  promise_all (ratingPromises getR uid refs) = Fulfilled rs →
  ∀ pid ord r,
    (pid, ord, r) ∈ rs ↔ (pid, ord) ∈ refs ∧ getR uid pid ord = Fulfilled r.
Proof.
  intros Hall pid ord r. unfold ratingPromises in Hall.
  rewrite (promise_all_fmap_elem _ _ _ Hall). split.
  - intros ([pid' ord'] & Hin & Hx). destruct (getR uid pid' ord') eqn:Hg; [|done].
    simpl in Hx. by simplify_eq.
  - intros [Hin Hg]. exists (pid, ord). by rewrite Hg.
Qed.

Lemma ratingPromises_Rejected uid refs :
  promise_all (ratingPromises getR uid refs) = Rejected
  ↔ ∃ pid ord, (pid, ord) ∈ refs ∧ getR uid pid ord = Rejected.
Proof.
  rewrite promise_all_Rejected. unfold ratingPromises. rewrite list_elem_of_fmap.
  split.
  - intros ([pid ord] & Hx & Hin). exists pid, ord. split; [done|].
    by destruct (getR uid pid ord).
  - intros (pid & ord & Hin & Hg). exists (pid, ord). by rewrite Hg.
Qed.

Lemma productPromises_Rejected refs :
  promise_all (productPromises getP refs) = Rejected
  ↔ ∃ pid ord, (pid, ord) ∈ refs ∧ getP pid = Rejected.
Proof.
  rewrite promise_all_Rejected. unfold productPromises. rewrite list_elem_of_fmap.
  split.
  - intros ([pid ord] & Hx & Hin). by exists pid, ord.
  - intros (pid & ord & Hin & Hg). by exists (pid, ord).
Qed.

Lemma loadUserRatings_settled user uid refs s :
  uidOf user = Some uid → refs ≠ [] →
  (∀ pid ord, (pid, ord) ∈ refs → getR uid pid ord ≠ Rejected) →
  ∃ rs, promise_all (ratingPromises getR uid refs) = Fulfilled rs
        ∧ loadUserRatings getR user refs s
          = setUserRatings (λ _, ratingsMap rs) (issue (ratingLookups uid refs) s).
Proof.
  intros Huid Hne Hok. unfold loadUserRatings. rewrite Huid.
  rewrite bool_decide_eq_false_2 by (by destruct refs).
  destruct (promise_all (ratingPromises getR uid refs)) as [rs|] eqn:Hall.
  - by exists rs.
  - apply ratingPromises_Rejected in Hall as (pid & ord & Hin & Hg).
    by destruct (Hok pid ord Hin).
Qed.

Lemma loadUserRatings_rejected user uid refs s pid ord :
  uidOf user = Some uid → (pid, ord) ∈ refs → getR uid pid ord = Rejected →
  loadUserRatings getR user refs s
  = logConsole "Error loading user ratings:" (issue (ratingLookups uid refs) s).
Proof.
  intros Huid Hin Hg. unfold loadUserRatings. rewrite Huid.
  rewrite bool_decide_eq_false_2 by (destruct refs; [by apply elem_of_nil in Hin|done]).
  assert (promise_all (ratingPromises getR uid refs) = Rejected) as ->; [|done].
  apply ratingPromises_Rejected. eauto.
Qed.

(** Whatever the lookups answer, a rating batch shows no toast, leaves
    the in-flight marker and the tracking view alone, and calls nothing
    but rating lookups. *)
Lemma loadUserRatings_quiet user refs s :
  let s' := loadUserRatings getR user refs s in
  toasts s' = toasts s
  ∧ productRatingLoading s' = productRatingLoading s
  ∧ selectedOrderId s' = selectedOrderId s
  ∧ isTrackingOpen s' = isTrackingOpen s
  ∧ ∃ cs, calls s' = (calls s ++ cs)%list
          ∧ Forall (λ c, ∃ uid pid ord, c = GetUserProductRating uid pid ord) cs.
Proof.
  unfold loadUserRatings. destruct (uidOf user) as [uid|]; simpl.
  2:{ split_and!; try done. exists []. by rewrite app_nil_r. }
  case_bool_decide.
  { split_and!; try done. exists []. by rewrite app_nil_r. }
  assert (Forall (λ c, ∃ uid pid ord, c = GetUserProductRating uid pid ord)
            (ratingLookups uid refs)) as Hcalls.
  { unfold ratingLookups. apply Forall_fmap, Forall_forall.
    intros [pid ord] _. simpl. eauto. }
  destruct (promise_all _); simpl; split_and!; try done; eauto.
Qed.

Lemma products_settled refs :
  (∀ pid ord, (pid, ord) ∈ refs → getP pid ≠ Rejected) →
  ∀ p, p ∈ products getP refs
       ↔ ∃ pid ord, (pid, ord) ∈ refs ∧ getP pid = Fulfilled (Some p).
Proof.
  intros Hok p. unfold products, queryFn.
  destruct refs as [|r refs].
  { simpl. split; [by intros ?%elem_of_nil|].
    by intros (? & ? & ?%elem_of_nil & _). }
  rewrite bool_decide_eq_true_2 by (simpl; lia).
  rewrite bool_decide_eq_false_2 by done.
  destruct (promise_all (productPromises getP (r :: refs))) as [rs|] eqn:Hall.
  - simpl. rewrite nonNull_elem. unfold productPromises in Hall.
    rewrite (promise_all_fmap_elem _ _ _ Hall). split.
    + intros ([pid ord] & Hin & Hx). eauto.
    + intros (pid & ord & Hin & Hx). by exists (pid, ord).
  - apply productPromises_Rejected in Hall as (pid & ord & Hin & Hg).
    by destruct (Hok pid ord Hin).
Qed.

Lemma products_rejected refs pid ord :
  (pid, ord) ∈ refs → getP pid = Rejected → products getP refs = [].
Proof.
  intros Hin Hg. unfold products, queryFn.
  case_bool_decide; [|done]. rewrite bool_decide_eq_false_2 by lia.
  assert (promise_all (productPromises getP refs) = Rejected) as ->; [|done].
  apply productPromises_Rejected. eauto.
Qed.
End BatchFacts.

(** C3, as stated, fails: when one lookup of a batch rejects, the answers
    of the other lookups are lost with it. Here the lookups about "q"
    reject and those about "p" answer, yet neither map gets "p". *)
Lemma C3_rejection_drops_batch :
  sampleGetRating "u" "p" "N-1" = Fulfilled (Some 5%Z)
  ∧ userRatings (loadUserRatings sampleGetRating (Some "u") sampleRefs initialState)
      !! ratingKey "p" "N-1" = None
  ∧ sampleGetProduct "p" = Fulfilled (Some (mkProduct "p"))
  ∧ productMap (products sampleGetProduct sampleRefs) !! "p" = None.
Proof. split_and!; reflexivity. Qed.

(** C3, amended: a lookup that answers [null] (a missing product, no
    rating) leaves only its own entry out, and the other answers of the
    batch fill the product map and the rating map; a lookup that rejects
    drops its whole batch: the rating map is left as it was and the
    product list is empty. In neither case is anything shown: no toast,
    no call other than the lookups, nothing but the rating map and the
    logs changes. *)
Theorem C3_null_excluded_rejection_drops
    (getP : string → settled (option Product))
    (getR : string → string → string → settled (option Z))
    (user : option string) (uid : string) (refs : list ItemRef) (s : State) :
  uidOf user = Some uid → refs ≠ [] →
  let s' := loadUserRatings getR user refs s in
  (toasts s' = toasts s
   ∧ productRatingLoading s' = productRatingLoading s
   ∧ selectedOrderId s' = selectedOrderId s
   ∧ isTrackingOpen s' = isTrackingOpen s
   ∧ ∃ cs, calls s' = (calls s ++ cs)%list
           ∧ Forall (λ c, ∃ uid pid ord, c = GetUserProductRating uid pid ord) cs)
  ∧ ((∀ pid ord, (pid, ord) ∈ refs → getR uid pid ord ≠ Rejected) →
     (∀ pid ord v, (pid, ord) ∈ refs → getR uid pid ord = Fulfilled (Some v) →
        is_Some (userRatings s' !! ratingKey pid ord))
     ∧ (∀ k v, userRatings s' !! k = Some v →
          ∃ pid ord, (pid, ord) ∈ refs ∧ k = ratingKey pid ord
                     ∧ getR uid pid ord = Fulfilled (Some v)))
  ∧ ((∃ pid ord, (pid, ord) ∈ refs ∧ getR uid pid ord = Rejected) →
     userRatings s' = userRatings s)
  ∧ ((∀ pid ord, (pid, ord) ∈ refs → getP pid ≠ Rejected) →
     ∀ k, is_Some (productMap (products getP refs) !! k)
          ↔ ∃ pid ord p, (pid, ord) ∈ refs ∧ getP pid = Fulfilled (Some p)
                         ∧ product_id p = k)
  ∧ ((∃ pid ord, (pid, ord) ∈ refs ∧ getP pid = Rejected) →
     products getP refs = []).
Proof.
  intros Huid Hne s'. refine (conj _ (conj _ (conj _ (conj _ _)))).
  - apply loadUserRatings_quiet.
  - intros Hok.
    destruct (loadUserRatings_settled getR user uid refs s Huid Hne Hok)
      as (rs & Hall & Heq).
    subst s'. rewrite Heq. simpl. split.
    + intros pid ord v Hin Hg. apply foldl_insertRating_is_Some. right.
      exists pid, ord, v. split; [|done].
      by apply (ratingPromises_results getR uid refs rs Hall).
    + intros k v [Hk|(pid & ord & Hin & ->)]%foldl_insertRating_Some.
      * by rewrite lookup_empty in Hk.
      * apply (ratingPromises_results getR uid refs rs Hall) in Hin as [Hin Hg].
        eauto.
  - intros (pid & ord & Hin & Hg). subst s'.
    by rewrite (loadUserRatings_rejected getR user uid refs s pid ord).
  - intros Hok k. rewrite productMap_is_Some, list_elem_of_fmap. split.
    + intros (p & -> & Hp). apply (products_settled getP refs Hok) in Hp
        as (pid & ord & Hin & Hg). by exists pid, ord, p.
    + intros (pid & ord & p & Hin & Hg & <-). exists p. split; [done|].
      apply (products_settled getP refs Hok). eauto.
  - intros (pid & ord & Hin & Hg). by apply (products_rejected getP refs pid ord).
Qed.

Lemma C3_null_excluded_rejection_drops_witness :
  uidOf (Some "u") = Some "u" ∧ sampleRefs ≠ []
  ∧ sampleGetRatingNull "u" "q" "N-1" = Fulfilled None
  ∧ is_Some (userRatings
               (loadUserRatings sampleGetRatingNull (Some "u") sampleRefs initialState)
               !! ratingKey "p" "N-1")
  ∧ is_Some (productMap (products sampleGetProductNull sampleRefs) !! "p")
  ∧ userRatings (loadUserRatings sampleGetRating (Some "u") sampleRefs initialState)
    = userRatings initialState.
Proof.
  assert (uidOf (Some "u") = Some "u") as Huid by reflexivity.
  assert (sampleRefs ≠ []) as Hne by discriminate.
  assert (("p", "N-1") ∈ sampleRefs) as Hp by (vm_compute; left).
  assert (("q", "N-1") ∈ sampleRefs) as Hq by (vm_compute; right; left).
  refine (conj Huid (conj Hne (conj eq_refl (conj _ (conj _ _))))).
  - destruct (C3_null_excluded_rejection_drops sampleGetProductNull
                sampleGetRatingNull (Some "u") "u" sampleRefs initialState Huid Hne)
      as (_ & Hsettle & _).
    destruct Hsettle as [Hin _].
    { intros pid ord _. unfold sampleGetRatingNull. by case_bool_decide. }
    by apply (Hin "p" "N-1" 5%Z).
  - destruct (C3_null_excluded_rejection_drops sampleGetProductNull
                sampleGetRatingNull (Some "u") "u" sampleRefs initialState Huid Hne)
      as (_ & _ & _ & Hproducts & _).
    apply Hproducts.
    { intros pid ord _. unfold sampleGetProductNull. by case_bool_decide. }
    by exists "p", "N-1", (mkProduct "p").
  - destruct (C3_null_excluded_rejection_drops sampleGetProduct
                sampleGetRating (Some "u") "u" sampleRefs initialState Huid Hne)
      as (_ & _ & Hrej & _).
    apply Hrej. by exists "q", "N-1".
Defined.

(** ** Rating submission *)

Lemma handleProductRating_begin_event user refs pid r ev name ord s :
  (handleProductRating_begin user refs pid r ev name ord s).1.1
  = preventDefault (stopPropagation ev).
Proof.
  unfold handleProductRating_begin. destruct (uidOf user); [|done].
  by destruct (truthy _).
Qed.

Lemma handleProductRating_begin_unauthenticated user refs pid r ev name ord s :
  uidOf user = None →
  handleProductRating_begin user refs pid r ev name ord s
  = (preventDefault (stopPropagation ev),
     toast (ToastError loginMessage)
       (logConsole ("Rating product " ++ name ++ " with " ++ pretty r ++ " stars") s),
     None).
Proof. intros Huid. unfold handleProductRating_begin. by rewrite Huid. Qed.

Lemma handleProductRating_begin_rated user refs pid r ev name ord s :
  truthy (userRatings s !! ratingKey pid ord) = true →
  ∃ t, handleProductRating_begin user refs pid r ev name ord s
       = (preventDefault (stopPropagation ev),
          toast t
            (logConsole ("Rating product " ++ name ++ " with " ++ pretty r ++ " stars") s),
          None)
       ∧ (t = ToastError loginMessage ∧ uidOf user = None
          ∨ t = ToastInfo (alreadyRatedMessage name (userRatings s !! ratingKey pid ord))
            ∧ is_Some (uidOf user)).
Proof.
  intros Hrated. unfold handleProductRating_begin.
  destruct (uidOf user) as [uid|].
  - simpl. rewrite Hrated. eexists. split; [done|]. right. eauto.
  - eexists. split; [done|]. by left.
Qed.

Lemma handleProductRating_begin_started user uid refs pid r ev name ord s :
  uidOf user = Some uid →
  truthy (userRatings s !! ratingKey pid ord) = false →
  handleProductRating_begin user refs pid r ev name ord s
  = (preventDefault (stopPropagation ev),
     issue [UpdateProductRating pid r uid ord]
       (setUserRatings (λ prev, <[ratingKey pid ord := r]> prev)
          (setProductRatingLoading (mkLoading ord pid)
             (logConsole ("Rating product " ++ name ++ " with " ++ pretty r ++ " stars") s))),
     Some (mkSubmission pid r name ord uid refs)).
Proof.
  intros Huid Hfree. unfold handleProductRating_begin. rewrite Huid. simpl.
  by rewrite Hfree.
Qed.

Lemma append_assoc (a b c : string) : (a ++ b) ++ c = a ++ b ++ c.
Proof.
  induction a as [|x a IH]; [done|].
  change (String x ((a ++ b) ++ c) = String x (a ++ b ++ c)). by rewrite IH.
Qed.

Lemma alreadyRatedMessage_contains name (r : Z) :
  contains (pretty r) (alreadyRatedMessage name (Some r)).
Proof.
  unfold contains, alreadyRatedMessage. simpl.
  exists ("You already rated " ++ dquote ++ name ++ dquote ++ " with "), " stars".
  by rewrite !append_assoc.
Qed.

(** C6, as stated, fails at two inputs. The guard of line 202 tests the
    truthiness of the stored value, so a pair whose stored rating is 0 is
    not held to be rated: the submission sets the marker, writes
    optimistically and calls the backend. And the login guard comes first:
    without a signed-in user a submission for a rated pair shows the login
    error and no notice with the existing rating. *)
Lemma C6_stored_zero_is_submitted :
  userRatings sampleZero !! ratingKey "p" "N-1" = Some 0%Z
  ∧ calls (handleProductRating (Some "u") sampleRefs "p" 5%Z freshEvent "Tea" "N-1"
             (Fulfilled ()) sampleZero).2
    = [UpdateProductRating "p" 5%Z "u" "N-1"; InvalidateQueries sampleRefs]
  ∧ userRatings (handleProductRating (Some "u") sampleRefs "p" 5%Z freshEvent "Tea"
                   "N-1" (Fulfilled ()) sampleZero).2 !! ratingKey "p" "N-1"
    = Some 5%Z
  ∧ userRatings sampleRated !! ratingKey "p" "N-1" = Some 4%Z
  ∧ toasts (handleProductRating None sampleRefs "p" 5%Z freshEvent "Tea" "N-1"
              (Fulfilled ()) sampleRated).2 = [ToastError loginMessage].
Proof. split_and!; reflexivity. Qed.

(** C6, amended: a submission for a pair that has a rating other than 0 in
    the rating map issues no network call and changes no state, and for a
    signed-in user it shows an informational notice that contains the
    existing rating; a submission without a signed-in user is rejected
    with the login notice, again without any network call or change of
    state, whether or not the pair is rated. In both cases the handler
    stops there, whatever the backend would have answered. A stored 0 does
    not count as a rating: for a signed-in user the submission then
    proceeds to the remote write. *)
Theorem C6_guards_reject_before_any_call
    (user : option string) (refs : list ItemRef) (pid : string) (r : Z)
    (ev : Event) (name ord : string) (written : settled unit) (s : State) :
  let s' := (handleProductRating user refs pid r ev name ord written s).2 in
  (∀ existing, userRatings s !! ratingKey pid ord = Some existing → existing ≠ 0%Z →
     calls s' = calls s ∧ reactState s' = reactState s
     ∧ (is_Some (uidOf user) →
        ∃ msg, toasts s' = (toasts s ++ [ToastInfo msg])%list
               ∧ contains (pretty existing) msg))
  ∧ (uidOf user = None →
     calls s' = calls s ∧ reactState s' = reactState s
     ∧ toasts s' = (toasts s ++ [ToastError loginMessage])%list)
  ∧ (∀ uid, uidOf user = Some uid → userRatings s !! ratingKey pid ord = Some 0%Z →
     ∃ cs, calls s' = (calls s ++ UpdateProductRating pid r uid ord :: cs)%list).
Proof.
  intros s'. split_and!.
  - intros existing Hex Hnz.
    assert (truthy (userRatings s !! ratingKey pid ord) = true) as Hrated.
    { rewrite Hex. simpl. by apply bool_decide_eq_true_2. }
    destruct (handleProductRating_begin_rated user refs pid r ev name ord s Hrated)
      as (t & Hbegin & Ht).
    subst s'. unfold handleProductRating. rewrite Hbegin. simpl.
    split_and!; [done..|]. intros [uid Huid].
    destruct Ht as [[_ Hnone]|[-> _]]; [congruence|].
    eexists. split; [done|]. rewrite Hex. apply alreadyRatedMessage_contains.
  - intros Huid. subst s'. unfold handleProductRating.
    by rewrite (handleProductRating_begin_unauthenticated _ _ _ _ _ _ _ _ Huid).
  - intros uid Huid Hzero.
    assert (truthy (userRatings s !! ratingKey pid ord) = false) as Hfree
      by (by rewrite Hzero).
    subst s'. unfold handleProductRating.
    rewrite (handleProductRating_begin_started _ _ _ _ _ _ _ _ _ Huid Hfree).
    destruct written as [u|]; simpl; rewrite <- ?app_assoc; eauto.
Qed.

Lemma C6_guards_reject_before_any_call_witness :
  (calls (handleProductRating (Some "u") sampleRefs "p" 5%Z freshEvent "Tea" "N-1"
            (Fulfilled ()) sampleRated).2 = []
   ∧ ∃ msg, toasts (handleProductRating (Some "u") sampleRefs "p" 5%Z freshEvent "Tea"
                      "N-1" (Fulfilled ()) sampleRated).2 = [ToastInfo msg]
            ∧ contains "4" msg)
  ∧ toasts (handleProductRating None sampleRefs "p" 5%Z freshEvent "Tea" "N-1"
              (Fulfilled ()) initialState).2 = [ToastError loginMessage]
  ∧ ∃ cs, calls (handleProductRating (Some "u") sampleRefs "p" 5%Z freshEvent "Tea"
                   "N-1" Rejected sampleZero).2
          = UpdateProductRating "p" 5%Z "u" "N-1" :: cs.
Proof.
  refine (conj _ (conj _ _)).
  - destruct (C6_guards_reject_before_any_call (Some "u") sampleRefs "p" 5%Z freshEvent
                "Tea" "N-1" (Fulfilled ()) sampleRated) as (Hrated & _ & _).
    destruct (Hrated 4%Z) as (Hcalls & _ & Hmsg); [reflexivity|lia|].
    split; [exact Hcalls|]. apply Hmsg. by exists "u".
  - destruct (C6_guards_reject_before_any_call None sampleRefs "p" 5%Z freshEvent
                "Tea" "N-1" (Fulfilled ()) initialState) as (_ & Hnone & _).
    destruct Hnone as (_ & _ & Htoasts); [reflexivity|]. exact Htoasts.
  - destruct (C6_guards_reject_before_any_call (Some "u") sampleRefs "p" 5%Z freshEvent
                "Tea" "N-1" Rejected sampleZero) as (_ & _ & Hzero).
    exact (Hzero "u" eq_refl eq_refl).
Defined.

Lemma truthy_false_orZero (v : option Z) : truthy v = false → orZero v = 0%Z.
Proof.
  destruct v as [r|]; simpl; [|done].
  intros Hr%bool_decide_eq_false. destruct (decide (r = 0%Z)); [done|]. by destruct Hr.
Qed.

Lemma isSaving_noLoading order item :
  productId item ≠ "" ∨ orderNumber order ≠ "" → isSaving noLoading order item = false.
Proof.
  intros Hne. unfold isSaving, noLoading. simpl.
  apply andb_false_iff. destruct Hne.
  - left. apply bool_decide_eq_false_2. congruence.
  - right. by apply bool_decide_eq_false_2.
Qed.

(** What [catch] and [finally] do, from whatever state the failure finds. *)
Lemma handleProductRating_settle_Rejected (p : Submission) (s1 : State) :
  handleProductRating_settle p Rejected s1
  = mkState (delete (sub_ratingKey p) (userRatings s1)) noLoading
      (selectedOrderId s1) (isTrackingOpen s1)
      (toasts s1 ++ [ToastError (failedMessage (sub_productName p))])
      (calls s1) (console s1 ++ ["Error rating product:"]).
Proof. reflexivity. Qed.

(** What the rest of [try] and [finally] do after a successful write. *)
Lemma handleProductRating_settle_Fulfilled (p : Submission) (u : unit) (s1 : State) :
  handleProductRating_settle p (Fulfilled u) s1
  = mkState (userRatings s1) noLoading (selectedOrderId s1) (isTrackingOpen s1)
      (toasts s1 ++ [ToastSuccess (thanksMessage (sub_productName p) (sub_rating p))])
      (calls s1 ++ [InvalidateQueries (sub_refs p)]) (console s1).
Proof. reflexivity. Qed.

(** C7: when the remote write of a submission fails, the optimistic value
    of its pair is removed from the rating map, a failure notification is
    shown, the in-flight marker is cleared, so that the control of the
    pair (whose product id or order number is not the empty string) is
    interactive again, and no other rating changes: every other key keeps
    its entry, and every pair is rated as it was before the submission.
    The removal, the notification and the clearing also hold from any
    state the failure finds. *)
Theorem C7_failed_write_reverts
    (user : option string) (uid : string) (refs : list ItemRef) (pid : string)
    (r : Z) (ev : Event) (name ord : string) (s : State) :
  uidOf user = Some uid →
  truthy (userRatings s !! ratingKey pid ord) = false →
  let s2 := (handleProductRating user refs pid r ev name ord Rejected s).2 in
  userRatings s2 !! ratingKey pid ord = None
  ∧ toasts s2 = (toasts s ++ [ToastError (failedMessage name)])%list
  ∧ productRatingLoading s2 = noLoading
  ∧ (∀ pm order item,
       productId item = pid → orderNumber order = ord →
       is_Some (pm !! pid) → status order = "delivered" →
       pid ≠ "" ∨ ord ≠ "" →
       interactive pm s2 order item = true)
  ∧ (∀ k, k ≠ ratingKey pid ord → userRatings s2 !! k = userRatings s !! k)
  ∧ (∀ pid' ord', orZero (userRatings s2 !! ratingKey pid' ord')
                  = orZero (userRatings s !! ratingKey pid' ord'))
  ∧ (∀ s1, let s2' := handleProductRating_settle
                        (mkSubmission pid r name ord uid refs) Rejected s1 in
       userRatings s2' = delete (ratingKey pid ord) (userRatings s1)
       ∧ toasts s2' = (toasts s1 ++ [ToastError (failedMessage name)])%list
       ∧ productRatingLoading s2' = noLoading).
Proof.
  intros Huid Hfree s2.
  assert (userRatings s2 = delete (ratingKey pid ord)
                             (<[ratingKey pid ord := r]> (userRatings s))) as Hmap.
  { subst s2. unfold handleProductRating.
    by rewrite (handleProductRating_begin_started _ _ _ _ _ _ _ _ _ Huid Hfree). }
  assert (productRatingLoading s2 = noLoading) as Hslot.
  { subst s2. unfold handleProductRating.
    by rewrite (handleProductRating_begin_started _ _ _ _ _ _ _ _ _ Huid Hfree). }
  assert (userRatings s2 !! ratingKey pid ord = None) as Hgone.
  { rewrite Hmap. apply lookup_delete_eq. }
  assert (∀ k, k ≠ ratingKey pid ord → userRatings s2 !! k = userRatings s !! k) as Hother.
  { intros k Hk. rewrite Hmap, lookup_delete_ne, lookup_insert_ne; done. }
  split_and!; try done.
  - subst s2. unfold handleProductRating.
    by rewrite (handleProductRating_begin_started _ _ _ _ _ _ _ _ _ Huid Hfree).
  - intros pm order item Hpid Hord [prod Hprod] Hst Hne.
    unfold interactive, ratingSection. rewrite Hpid, Hord, Hprod.
    rewrite bool_decide_eq_true_2 by done. simpl. rewrite Hgone, Hslot. simpl.
    rewrite isSaving_noLoading by (rewrite Hpid, Hord; done). done.
  - intros pid' ord'. destruct (decide (ratingKey pid' ord' = ratingKey pid ord)) as [->|Hk].
    + rewrite Hgone. simpl. symmetry. by apply truthy_false_orZero.
    + by rewrite Hother.
Qed.

Lemma C7_failed_write_reverts_witness :
  userRatings (handleProductRating (Some "u") sampleRefs "p" 4%Z freshEvent "Tea" "N-1"
                 Rejected initialState).2 !! ratingKey "p" "N-1" = None
  ∧ productRatingLoading
      (handleProductRating (Some "u") sampleRefs "p" 4%Z freshEvent "Tea" "N-1"
         Rejected initialState).2 = noLoading.
Proof.
  destruct (C7_failed_write_reverts (Some "u") "u" sampleRefs "p" 4%Z freshEvent
              "Tea" "N-1" initialState) as (Hgone & _ & Hslot & _).
  - reflexivity.
  - reflexivity.
  - split; [exact Hgone | exact Hslot].
Defined.

Lemma ratingsMap_lookup_None rs (k : string) :
  (∀ pid ord v, (pid, ord, Some v) ∈ rs → k ≠ ratingKey pid ord) →
  ratingsMap rs !! k = None.
Proof.
  intros Hnone. unfold ratingsMap.
  destruct (foldl insertRating ∅ rs !! k) as [v|] eqn:Hk; [|done].
  apply foldl_insertRating_Some in Hk as [Hk|(pid & ord & Hin & ->)].
  - by rewrite lookup_empty in Hk.
  - by destruct (Hnone pid ord v Hin).
Qed.





(** ** The rating control *)

Lemma truthy_false_iff (v : option Z) :
  truthy v = false ↔ ∀ r, v = Some r → r = 0%Z.
Proof.
  destruct v as [r|]; simpl.
  - rewrite bool_decide_eq_false. split.
    + intros Hr r' [= <-]. destruct (decide (r = 0%Z)); [done|]. by destruct Hr.
    + intros Hr Hne. by apply Hne, Hr.
  - split; [by intros _ r [=]|done].
Qed.

Lemma isSaving_true_iff l order item :
  isSaving l order item = true
  ↔ loadingProductId l = productId item ∧ orderID l = orderNumber order.
Proof.
  unfold isSaving. rewrite andb_true_iff, !bool_decide_eq_true. naive_solver.
Qed.

(** C5, as stated, fails: the rating section is only rendered for a line
    item whose product record is in the product map. A delivered order with
    an unrated item and no submission in flight has no interactive control
    while the product is missing from the map. *)
Lemma C5_missing_product_not_interactive :
  status sampleOrder = "delivered"
  ∧ userRatings initialState !! ratingKey (productId sampleItem) (orderNumber sampleOrder)
    = None
  ∧ productRatingLoading initialState = noLoading
  ∧ interactive ∅ initialState sampleOrder sampleItem = false.
Proof. split_and!; reflexivity. Qed.

(** C5, amended: the rating control of a line item is interactive if and
    only if the product record of the item is in the product map, the
    status of the owning order is "delivered", no rating other than 0 is
    stored in the rating map for the pair, and the in-flight marker does
    not hold exactly this pair. *)
Theorem C5_interactive_iff
    (pm : gmap string Product) (s : State) (order : Order) (item : OrderItem) :
  interactive pm s order item = true
  ↔ is_Some (pm !! productId item)
    ∧ status order = "delivered"
    ∧ (∀ r, userRatings s !! ratingKey (productId item) (orderNumber order) = Some r →
         r = 0%Z)
    ∧ ¬ (loadingProductId (productRatingLoading s) = productId item
         ∧ orderID (productRatingLoading s) = orderNumber order).
Proof.
  rewrite <- truthy_false_iff, <- isSaving_true_iff.
  unfold interactive, ratingSection.
  destruct (pm !! productId item) as [prod|]; simpl.
  2:{ split; [done|]. by intros [[? [=]] _]. }
  case_bool_decide as Hst; simpl.
  2:{ split; [done|]. by intros (_ & ? & _). }
  destruct (truthy _); simpl.
  { split; [done|]. by intros (_ & _ & ? & _). }
  destruct (isSaving _ _ _); simpl.
  { split; [done|]. by intros (_ & _ & _ & []). }
  split; [|done].
  intros _. split_and!; eauto.
Qed.

(** ** The in-flight marker *)

Lemma savingIndicator_true pm s order item :
  savingIndicator pm s order item = true →
  refOf (order, item)
  = (loadingProductId (productRatingLoading s), orderID (productRatingLoading s)).
Proof.
  unfold savingIndicator, ratingSection, refOf.
  destruct (pm !! productId item); [|done].
  case_bool_decide; [|done]. simpl.
  intros [-> ->]%isSaving_true_iff. done.
Qed.

Lemma allOrderItems_rendered (orders : list Order) :
  allOrderItems orders = refOf <$> renderedItems orders.
Proof.
  unfold allOrderItems, renderedItems.
  induction orders as [|o orders IH]; [done|].
  rewrite !bind_cons, fmap_app, IH. f_equal.
  by rewrite <- list_fmap_compose.
Qed.

Lemma NoDup_constant_length {A} (l : list A) (x : A) :
  NoDup l → (∀ y, y ∈ l → y = x) → (length l ≤ 1)%nat.
Proof.
  destruct l as [|a [|b l]]; simpl; [lia..|].
  intros [Hnotin _]%NoDup_cons Hall. destruct Hnotin.
  rewrite (Hall a), (Hall b); [by left| | ]; set_solver.
Qed.

(** C10, as stated, fails in its consequence: the marker names a pair, not
    a line item. While the rating of product "p" of order "N-1" is saved,
    both line items of an order that carries "p" twice show the saving
    indicator. *)
Lemma C10_two_items_show_saving :
  productRatingLoading sampleSaving = mkLoading "N-1" "p"
  ∧ savingItems sampleProducts sampleSaving sampleTwice
    = [(mkOrder "o1" "N-1" "delivered" [mkItem "p" "Tea"; mkItem "p" "Tea"],
        mkItem "p" "Tea");
       (mkOrder "o1" "N-1" "delivered" [mkItem "p" "Tea"; mkItem "p" "Tea"],
        mkItem "p" "Tea")]
  ∧ length (savingItems sampleProducts sampleSaving sampleTwice) = 2.
Proof. split_and!; reflexivity. Qed.

(** C10, amended: the in-flight state is a single slot that holds one
    (productId, orderNumber) pair: a submission that starts overwrites the
    slot with its own pair, whatever the slot held, and the completion of
    any submission, success or failure, resets the slot to the empty pair,
    whatever it held. So the saving indicator is shown for at most one
    pair at any moment: every line item that shows it carries the pair of
    the slot, hence at most one line item when the loaded line items carry
    distinct pairs; and a completing submission clears the indicator of
    every line item whose product id or order number is not empty,
    regardless of which pair started last. *)
Theorem C10_single_slot
    (pm : gmap string Product) (orders : list Order) (s : State) :
  (∀ user uid refs pid r ev name ord,
     uidOf user = Some uid → truthy (userRatings s !! ratingKey pid ord) = false →
     productRatingLoading (handleProductRating_begin user refs pid r ev name ord s).1.2
     = mkLoading ord pid)
  ∧ (∀ p written, productRatingLoading (handleProductRating_settle p written s) = noLoading)
  ∧ (∀ oi, oi ∈ savingItems pm s orders →
       refOf oi = (loadingProductId (productRatingLoading s),
                   orderID (productRatingLoading s)))
  ∧ (NoDup (allOrderItems orders) → (length (savingItems pm s orders) ≤ 1)%nat)
  ∧ (∀ p written,
       (∀ pid ord, (pid, ord) ∈ allOrderItems orders → pid ≠ "" ∨ ord ≠ "") →
       savingItems pm (handleProductRating_settle p written s) orders = []).
Proof.
  assert (∀ s' oi, oi ∈ savingItems pm s' orders →
            refOf oi = (loadingProductId (productRatingLoading s'),
                        orderID (productRatingLoading s'))) as Hpair.
  { intros s' [o it] [Hshown _]%list_elem_of_filter.
    by apply (savingIndicator_true pm). }
  split_and!.
  - intros user uid refs pid r ev name ord Huid Hfree.
    by rewrite (handleProductRating_begin_started _ _ _ _ _ _ _ _ _ Huid Hfree).
  - by intros p [u|].
  - apply Hpair.
  - intros Hnodup. rewrite <- (length_fmap refOf (savingItems pm s orders)).
    apply (NoDup_constant_length _
             (loadingProductId (productRatingLoading s), orderID (productRatingLoading s))).
    + apply (sublist_NoDup _ (allOrderItems orders)); [done|].
      rewrite allOrderItems_rendered. apply fmap_sublist. unfold savingItems.
      apply sublist_filter.
    + intros ref (oi & -> & Hin)%list_elem_of_fmap. by apply Hpair.
  - intros p written Hne.
    destruct (savingItems pm (handleProductRating_settle p written s) orders)
      as [|oi l] eqn:Hsav; [done|].
    assert (oi ∈ savingItems pm (handleProductRating_settle p written s) orders) as Hin
      by (rewrite Hsav; by left).
    pose proof (Hpair _ _ Hin) as Href.
    assert (productRatingLoading (handleProductRating_settle p written s) = noLoading)
      as Hslot by (by destruct written).
    rewrite Hslot in Href. simpl in Href.
    apply list_elem_of_filter in Hin as [_ Hin].
    apply (list_elem_of_fmap_2 refOf) in Hin. rewrite <- allOrderItems_rendered in Hin.
    rewrite Href in Hin. destruct (Hne _ _ Hin); done.
Qed.

Lemma C10_single_slot_witness :
  productRatingLoading
    (handleProductRating_begin (Some "u") sampleRefs "q" 3%Z freshEvent "Rice" "N-1"
       sampleSaving).1.2 = mkLoading "N-1" "q"
  ∧ (length (savingItems sampleProducts sampleSaving sampleDistinct) ≤ 1)%nat
  ∧ savingItems sampleProducts
      (handleProductRating_settle (mkSubmission "q" 3%Z "Rice" "N-1" "u" sampleRefs)
         Rejected sampleSaving) sampleDistinct = [].
Proof.
  destruct (C10_single_slot sampleProducts sampleDistinct sampleSaving)
    as (Hstart & _ & _ & Hone & Hclear).
  split_and!.
  - by apply (Hstart (Some "u") "u").
  - apply Hone. apply (bool_decide_unpack (NoDup (allOrderItems sampleDistinct))).
    vm_compute. exact I.
  - apply Hclear. intros pid ord Hin. vm_compute in Hin.
    repeat (apply elem_of_cons in Hin as [[= -> ->]|Hin]; [by left|]).
    by apply elem_of_nil in Hin.
Defined.

(** ** Infinite scroll *)

Lemma notificationCalls_firing (n : Notification) :
  notificationCalls n
  = if firing n then
      match uidOf (user n.1) with
      | Some uid => [LoadMoreOrders uid]
      | None => []
      end
    else [].
Proof.
  destruct n as [v [|target rest]]; [done|].
  unfold notificationCalls, firing, reportsVisible, loadable, observerCallback. simpl.
  destruct (isIntersecting target), (hasMore v), (loadingMore v), (loading v),
    (uidOf (user v)); done.
Qed.

Lemma firing_uid (n : Notification) :
  firing n = true → ∃ uid, uidOf (user n.1) = Some uid.
Proof.
  unfold firing, loadable. rewrite !andb_true_iff, bool_decide_eq_true.
  by intros (_ & _ & [uid ?]); exists uid.
Qed.

Lemma traceCalls_length (tr : list Notification) :
  length (traceCalls tr) = length (filter (λ n, firing n = true) tr).
Proof.
  unfold traceCalls. induction tr as [|n tr IH]; [done|].
  rewrite bind_cons, length_app, IH, filter_cons, notificationCalls_firing.
  destruct (firing n) eqn:Hf.
  - destruct (firing_uid n Hf) as [uid ->]. by rewrite decide_True.
  - by rewrite decide_False.
Qed.

(** C8, as stated, fails in its last part: the callback has no memory of
    the sentinel's visibility, it calls [loadMoreOrders] at every
    notification that reports the sentinel visible while the conditions
    hold. A sentinel that stays in view from the first notification on
    changes from not visible to visible once and triggers two calls. *)
Lemma C8_visible_sentinel_triggers_again :
  reportsVisible <$> sampleTrace = [true; true; true]
  ∧ risingEdges false (reportsVisible <$> sampleTrace) = 1
  ∧ traceCalls sampleTrace = [LoadMoreOrders "u"; LoadMoreOrders "u"]
  ∧ (risingEdges false (reportsVisible <$> sampleTrace)
     < length (traceCalls sampleTrace))%nat.
Proof. split_and!; try reflexivity. vm_compute. lia. Qed.

(** C8, amended: [loadMoreOrders] is invoked only by a notification that
    reports the sentinel intersecting while [hasMore] is true, neither a
    load-more nor the initial load is in flight and a user is signed in
    (and then for that user); in particular never when [hasMore] is false.
    Each notification invokes it at most once, and exactly once when these
    conditions hold, so over a run it is invoked once per notification
    that reports the sentinel visible while the conditions hold. *)
Theorem C8_load_more_guard (v : Pagination) (entries : list Entry) :
  (∀ c, c ∈ notificationCalls (v, entries) →
     ∃ target rest uid,
       entries = target :: rest ∧ isIntersecting target = true
       ∧ hasMore v = true ∧ loadingMore v = false ∧ loading v = false
       ∧ user v = Some uid ∧ uid ≠ "" ∧ c = LoadMoreOrders uid)
  ∧ (hasMore v = false → notificationCalls (v, entries) = [])
  ∧ (length (notificationCalls (v, entries)) ≤ 1)%nat
  ∧ (firing (v, entries) = true →
     ∃ uid, user v = Some uid ∧ notificationCalls (v, entries) = [LoadMoreOrders uid])
  ∧ (∀ tr : list Notification,
       length (traceCalls tr) = length (filter (λ n, firing n = true) tr)
       ∧ (length (traceCalls tr)
          ≤ length (filter (λ n, reportsVisible n = true) tr))%nat).
Proof.
  assert (∀ uid, uidOf (user v) = Some uid → user v = Some uid ∧ uid ≠ "") as Huser.
  { intros uid. unfold uidOf. destruct (user v) as [u|]; [|done].
    case_bool_decide; [done|]. by intros [= ->]. }
  split_and!.
  - intros c. destruct entries as [|target rest].
    { by intros ?%elem_of_nil. }
    unfold notificationCalls, observerCallback. simpl.
    destruct (isIntersecting target) eqn:Hi, (hasMore v) eqn:Hh,
      (loadingMore v) eqn:Hl, (loading v) eqn:Hi'; simpl;
      try (by intros ?%elem_of_nil).
    destruct (uidOf (user v)) as [uid|] eqn:Huid; [|by intros ?%elem_of_nil].
    intros ->%list_elem_of_singleton. destruct (Huser uid eq_refl) as [Hu Hne].
    by exists target, rest, uid.
  - intros Hh. rewrite notificationCalls_firing. unfold firing, loadable. simpl.
    by rewrite Hh, andb_false_r.
  - rewrite notificationCalls_firing. destruct (firing _); [|simpl; lia].
    destruct (uidOf _); simpl; lia.
  - intros Hf. rewrite notificationCalls_firing, Hf.
    destruct (firing_uid _ Hf) as [uid Huid]. simpl in *. rewrite Huid.
    exists uid. split; [|done]. by apply Huser.
  - intros tr. split; [apply traceCalls_length|].
    rewrite traceCalls_length. apply sublist_length.
    induction tr as [|n tr IH]; [done|]. rewrite !filter_cons.
    destruct (decide (firing n = true)) as [Hf|Hf];
      destruct (decide (reportsVisible n = true)) as [Hr|Hr].
    + by apply sublist_skip.
    + unfold firing in Hf. apply andb_true_iff in Hf as [Hf _]. by destruct Hr.
    + by apply sublist_cons.
    + done.
Qed.

Lemma C8_load_more_guard_witness :
  notificationCalls (sampleLoadable, [mkEntry true]) = [LoadMoreOrders "u"]
  ∧ notificationCalls (mkPagination false false false (Some "u"), [mkEntry true]) = [].
Proof.
  split.
  - destruct (C8_load_more_guard sampleLoadable [mkEntry true])
      as (_ & _ & _ & Hfire & _).
    destruct (Hfire eq_refl) as (uid & [= <-] & Hcalls). exact Hcalls.
  - destruct (C8_load_more_guard (mkPagination false false false (Some "u"))
                [mkEntry true]) as (_ & Hnone & _).
    apply Hnone. reflexivity.
Defined.

(** ** Status presentation *)

Lemma not_elem_of_cons_1 {A} (x y : A) (l : list A) : x ∉ y :: l → x ≠ y ∧ x ∉ l.
Proof. by intros ?%not_elem_of_cons. Qed.

(** C9, as stated, fails: "placed" is not among the six statuses that have
    an icon and an emphasis of their own, and its label is not the raw
    string. Nor is the label of any of the seven statuses its raw string,
    so no choice of six of them makes the claim hold. *)
Lemma C9_placed_has_own_label :
  ("placed" ∉ sixStatuses)
  ∧ getStatusIcon "placed" = defaultIcon
  ∧ getStatusVariant "placed" = defaultVariant
  ∧ getStatusText "placed" = "Order Placed"
  ∧ getStatusText "placed" ≠ "placed"
  ∧ Forall (λ st, getStatusText st ≠ st) sevenStatuses.
Proof.
  split_and!; try reflexivity; try discriminate.
  - unfold sixStatuses. set_solver.
  - repeat constructor; discriminate.
Qed.

(** C9, amended: the three status-presentation functions are total (they
    are functions on all strings); for any status outside the six that the
    icon and the emphasis switch list, the icon and the badge emphasis are
    the neutral defaults; for any status outside the seven statuses of the
    data model (those six and "placed") the label is the raw status string
    unchanged, while "placed" is labelled "Order Placed". *)
Theorem C9_status_fallbacks (status : string) :
  (status ∉ sixStatuses →
     getStatusIcon status = defaultIcon ∧ getStatusVariant status = defaultVariant)
  ∧ (status ∉ sevenStatuses → getStatusText status = status)
  ∧ (status = "placed" → getStatusText status = "Order Placed").
Proof.
  split_and!.
  - unfold sixStatuses. intros Hout.
    repeat (apply not_elem_of_cons_1 in Hout as [? Hout]).
    unfold getStatusIcon, getStatusVariant.
    by rewrite !bool_decide_eq_false_2 by done.
  - unfold sevenStatuses, sixStatuses. intros Hout.
    repeat (apply not_elem_of_cons_1 in Hout as [? Hout]).
    unfold getStatusText. by rewrite !bool_decide_eq_false_2 by done.
  - by intros ->.
Qed.

Lemma C9_status_fallbacks_witness :
  getStatusIcon "returned" = defaultIcon
  ∧ getStatusVariant "returned" = defaultVariant
  ∧ getStatusText "returned" = "returned".
Proof.
  destruct (C9_status_fallbacks "returned") as (Hsix & Hseven & _).
  assert ("returned" ∉ sevenStatuses) as Hout.
  { apply (bool_decide_unpack ("returned" ∉ sevenStatuses)). vm_compute. exact I. }
  split_and!.
  - apply Hsix. intros Hin. apply Hout. by right.
  - apply Hsix. intros Hin. apply Hout. by right.
  - by apply Hseven.
Defined.

(** ** Clicks on an order card *)

Lemma tap_track_row (order : Order) (s : State) :
  tap order TapTrackRow s = (stopPropagation freshEvent, handleOrderClick (id order) s).
Proof. reflexivity. Qed.

Lemma tap_refresh (order : Order) (s : State) :
  tap order TapRefresh s
  = (stopPropagation freshEvent, issue [RefreshSingleOrder (id order)] s).
Proof. reflexivity. Qed.

Lemma tap_rating_section (order : Order) (s : State) :
  tap order TapRatingSection s = (stopPropagation freshEvent, s).
Proof. reflexivity. Qed.

(** C2 on the code: a tap on the summary of an order card, outside the
    rating stars, the refresh button and the "Track Order" row, meets no
    click handler, since the card has none: the tracking view stays as it
    was and no order is selected. Only the "Track Order" row opens the
    view, for the id of its order; the refresh button asks for a refresh
    of its order and leaves the view alone; both stop the propagation of
    the click. *)
Theorem C2_tap_on_summary_opens_nothing (order : Order) (s : State) :
  tap order TapSummary s = (freshEvent, s)
  ∧ (selectedOrderId (tap order TapTrackRow s).2 = Some (id order)
     ∧ isTrackingOpen (tap order TapTrackRow s).2 = true
     ∧ calls (tap order TapTrackRow s).2 = calls s
     ∧ propagationStopped (tap order TapTrackRow s).1 = true)
  ∧ (calls (tap order TapRefresh s).2 = (calls s ++ [RefreshSingleOrder (id order)])%list
     ∧ reactState (tap order TapRefresh s).2 = reactState s
     ∧ propagationStopped (tap order TapRefresh s).1 = true).
Proof. by rewrite tap_track_row, tap_refresh. Qed.

(** * Further properties of the component *)

Set Warnings "-unused-intro-pattern".

(** ** Rating keys *)

Lemma append_cons (x : Ascii.ascii) (a b : string) :
  String x a ++ b = String x (a ++ b).
Proof. reflexivity. Qed.

Lemma ratingKey_cons (x : Ascii.ascii) (pid ord : string) :
  ratingKey (String x pid) ord = String x (ratingKey pid ord).
Proof. reflexivity. Qed.

Lemma ratingKey_nil (ord : string) : ratingKey "" ord = String underscore ord.
Proof. reflexivity. Qed.

(** X1: the key [productId_orderNumber] tells two pairs apart whenever
    neither product id contains an underscore. *)
Theorem ratingKey_inj_no_underscore (pid pid' ord ord' : string) :
  countChar underscore pid = 0 →
  countChar underscore pid' = 0 →
  ratingKey pid ord = ratingKey pid' ord' →
  pid = pid' ∧ ord = ord'.
Proof.
  revert pid'. induction pid as [|x pid IH]; intros [|x' pid'] Hp Hp'.
  - rewrite !ratingKey_nil. by intros [= ->].
  - rewrite ratingKey_nil, ratingKey_cons. intros [= <- _]. by simpl in Hp'.
  - rewrite ratingKey_nil, ratingKey_cons. intros [= -> _]. by simpl in Hp.
  - rewrite !ratingKey_cons. intros [= -> Hkey]. simpl in Hp, Hp'.
    destruct (IH pid') as [-> ->]; [lia..|done|done].
Qed.

Lemma ratingKey_inj_no_underscore_witness :
  ratingKey "p" "N_1" = ratingKey "p" "N_1" ∧ ("p" = "p" ∧ "N_1" = "N_1").
Proof.
  split; [reflexivity|].
  apply (ratingKey_inj_no_underscore "p" "p" "N_1" "N_1"); reflexivity.
Defined.

Lemma string_length_append (a b : string) :
  String.length (a ++ b) = (String.length a + String.length b)%nat.
Proof.
  induction a as [|x a IH]; [done|].
  rewrite append_cons. simpl. by rewrite IH.
Qed.

Lemma ratingKey_shift (a b c : string) :
  ratingKey (a ++ "_" ++ b) c = ratingKey a (b ++ "_" ++ c).
Proof. unfold ratingKey. by rewrite !append_assoc. Qed.

(** X2: the key is not injective on pairs in general: product [a_b] in
    order [c] and product [a] in order [b_c] share a key. So once a
    signed-in user rates the first with a non-zero value, the stars of the
    second, in a delivered order whose product is loaded, are read-only
    and show that value, although the second was never rated. *)
Theorem ratingKey_collision_marks_other_pair_rated
    (usr : option string) (uid : string) (refs : list ItemRef) (a b c : string)
    (r : Z) (ev : Event) (name : string) (s : State)
    (pm : gmap string Product) (order : Order) (item : OrderItem) :
  uidOf usr = Some uid →
  truthy (userRatings s !! ratingKey (a ++ "_" ++ b) c) = false →
  r ≠ 0%Z →
  productId item = a → orderNumber order = b ++ "_" ++ c →
  status order = "delivered" → is_Some (pm !! a) →
  let s1 := (handleProductRating_begin usr refs (a ++ "_" ++ b) r ev name c s).1.2 in
  (a, b ++ "_" ++ c) ≠ (a ++ "_" ++ b, c)
  ∧ (∃ sec, ratingSection pm s1 order item = Some sec
            ∧ readonly (stars sec) = true ∧ rating (stars sec) = r
            ∧ onRatingChange (stars sec) = None ∧ ratedCaption sec = Some r)
  ∧ interactive pm s1 order item = false.
Proof.
  intros Huid Hfree Hr Hpid Hord Hst [prod Hprod] s1.
  assert (userRatings s1 !! ratingKey a (b ++ "_" ++ c) = Some r) as Hkey.
  { subst s1. rewrite (handleProductRating_begin_started _ _ _ _ _ _ _ _ _ Huid Hfree).
    simpl. rewrite <- ratingKey_shift. apply lookup_insert_eq. }
  assert (truthy (Some r) = true) as Htr by (by apply bool_decide_eq_true_2).
  split_and!.
  - intros [= Ha _]. 
    assert (String.length a = String.length (a ++ "_" ++ b)) as Hlen by (by rewrite <- Ha).
    rewrite !string_length_append in Hlen. simpl in Hlen. lia.
  - unfold ratingSection. rewrite Hpid, Hord, Hprod, Hkey, Htr.
    rewrite bool_decide_eq_true_2 by done. eexists. split; [done|]. by simpl.
  - unfold interactive, ratingSection. rewrite Hpid, Hord, Hprod, Hkey, Htr.
    by rewrite bool_decide_eq_true_2 by done.
Qed.

Lemma ratingKey_collision_marks_other_pair_rated_witness :
  interactive {[ "tea" := mkProduct "tea" ]}
    (handleProductRating_begin (Some "u") [] "tea_x" 4%Z freshEvent "Tea X" "7"
       initialState).1.2
    (mkOrder "o9" "x_7" "delivered" [mkItem "tea" "Tea"]) (mkItem "tea" "Tea") = false.
Proof.
  apply (ratingKey_collision_marks_other_pair_rated (Some "u") "u" [] "tea" "x" "7"
           4%Z freshEvent "Tea X" initialState {[ "tea" := mkProduct "tea" ]}
           (mkOrder "o9" "x_7" "delivered" [mkItem "tea" "Tea"]) (mkItem "tea" "Tea")).
  - reflexivity.
  - reflexivity.
  - lia.
  - reflexivity.
  - reflexivity.
  - reflexivity.
  - by exists (mkProduct "tea").
Defined.

(** ** Submissions, one after another and side by side *)

Lemma truthy_Some_nonzero (r : Z) : r ≠ 0%Z → truthy (Some r) = true.
Proof. intros Hr. by apply bool_decide_eq_true_2. Qed.

Lemma handleProductRating_rated_noop usr refs pid r ev name ord written s :
  truthy (userRatings s !! ratingKey pid ord) = true →
  calls (handleProductRating usr refs pid r ev name ord written s).2 = calls s
  ∧ reactState (handleProductRating usr refs pid r ev name ord written s).2 = reactState s.
Proof.
  intros Hrated.
  destruct (handleProductRating_begin_rated usr refs pid r ev name ord s Hrated)
    as (t & Hbegin & _).
  unfold handleProductRating. by rewrite Hbegin.
Qed.

Lemma loadUserRatings_drops_key
    (getR : string → string → string → settled (option Z))
    (usr : option string) (uid : string) (refs : list ItemRef) (s : State)
    (k : string) :
  uidOf usr = Some uid → refs ≠ [] →
  (∀ pid ord, (pid, ord) ∈ refs → getR uid pid ord ≠ Rejected) →
  (∀ pid ord, (pid, ord) ∈ refs → ratingKey pid ord = k →
     getR uid pid ord = Fulfilled None) →
  userRatings (loadUserRatings getR usr refs s) !! k = None.
Proof.
  intros Huid Hne Hok Hnull.
  destruct (loadUserRatings_settled getR usr uid refs s Huid Hne Hok)
    as (rs & Hall & ->).
  simpl. apply ratingsMap_lookup_None.
  intros pid ord v Hin%(ratingPromises_results getR uid refs rs Hall) Hk.
  destruct Hin as [Hin Hg]. rewrite (Hnull pid ord Hin) in Hg; [done|].
  by symmetry.
Qed.

(** X3: once a signed-in user's submission of a non-zero rating has
    started, the rating map holds that value for the pair; and in every
    state in which the map still holds it, whatever else has happened
    since, any further submission for the pair is refused without a
    network call or a change of state, and the success of the write keeps
    the value, so that the pair stays refused. The map is the only
    protection: a rating batch that settles in between without a rating
    for the key of the pair re-opens it, and the next submission of the
    user for the pair is started again. *)
Theorem resubmission_refused
    (usr : option string) (uid : string) (refs : list ItemRef) (pid : string)
    (r : Z) (ev : Event) (name ord : string) (s : State) :
  uidOf usr = Some uid →
  truthy (userRatings s !! ratingKey pid ord) = false →
  r ≠ 0%Z →
  let key := ratingKey pid ord in
  let started := (handleProductRating_begin usr refs pid r ev name ord s).1.2 in
  userRatings started !! key = Some r
  ∧ (∀ s1, userRatings s1 !! key = Some r →
       (∀ usr' refs' r' ev' name' written,
          calls (handleProductRating usr' refs' pid r' ev' name' ord written s1).2
            = calls s1
          ∧ reactState (handleProductRating usr' refs' pid r' ev' name' ord written s1).2
            = reactState s1)
       ∧ userRatings
           (handleProductRating_settle (mkSubmission pid r name ord uid refs)
              (Fulfilled ()) s1) !! key = Some r)
  ∧ (∀ s1 (getR : string → string → string → settled (option Z)) usr' uid' refs',
       uidOf usr' = Some uid' → refs' ≠ [] →
       (∀ pid' ord', (pid', ord') ∈ refs' → getR uid' pid' ord' ≠ Rejected) →
       (∀ pid' ord', (pid', ord') ∈ refs' → ratingKey pid' ord' = key →
          getR uid' pid' ord' = Fulfilled None) →
       ∀ refs'' r' ev' name',
         (handleProductRating_begin usr refs'' pid r' ev' name' ord
            (loadUserRatings getR usr' refs' s1)).2
         = Some (mkSubmission pid r' name' ord uid refs'')).
Proof.
  intros Huid Hfree Hr key started. split_and!.
  - subst started key.
    rewrite (handleProductRating_begin_started _ _ _ _ _ _ _ _ _ Huid Hfree).
    simpl. apply lookup_insert_eq.
  - intros s1 Hkey. split; [|done].
    intros usr' refs' r' ev' name' written.
    apply handleProductRating_rated_noop. subst key. rewrite Hkey.
    by apply truthy_Some_nonzero.
  - subst key. intros s1 getR usr' uid' refs' Huid' Hne Hok Hnull refs'' r' ev' name'.
    assert (truthy (userRatings (loadUserRatings getR usr' refs' s1) !! ratingKey pid ord)
            = false) as Hfree'.
    { by rewrite (loadUserRatings_drops_key getR usr' uid' refs' s1 _ Huid' Hne Hok Hnull). }
    by rewrite (handleProductRating_begin_started _ _ _ _ _ _ _ _ _ Huid Hfree').
Qed.

Lemma resubmission_refused_witness :
  calls (handleProductRating (Some "u") [] "p" 2%Z freshEvent "Tea" "N-1" (Fulfilled ())
           sampleSaving).2 = calls sampleSaving
  ∧ (handleProductRating_begin (Some "u") [] "p" 2%Z freshEvent "Tea" "N-1"
       (loadUserRatings sampleGetRatingNone (Some "u") [("p", "N-1")] sampleSaving)).2
    = Some (mkSubmission "p" 2%Z "Tea" "N-1" "u" []).
Proof.
  assert (4 ≠ 0)%Z as Hr by lia.
  destruct (resubmission_refused (Some "u") "u" [("p", "N-1"); ("p", "N-1")] "p" 4%Z
              freshEvent "Tea" "N-1" initialState eq_refl eq_refl Hr)
    as (Hstarted & Hrefused & Hreopen).
  split.
  - destruct (Hrefused sampleSaving Hstarted) as [Hnoop _].
    by destruct (Hnoop (Some "u") [] 2%Z freshEvent "Tea" (Fulfilled ())).
  - apply (Hreopen sampleSaving sampleGetRatingNone (Some "u") "u" [("p", "N-1")]);
      [reflexivity|discriminate|done|done].
Defined.

(** X4: a failed submission can be tried again: after the remote write of
    a signed-in user's submission fails, a new submission for the same
    pair passes the guards, marks the pair as saving, writes the new value
    optimistically and issues the remote write. *)
Theorem resubmission_after_failure
    (usr : option string) (uid : string) (refs : list ItemRef) (pid : string)
    (r : Z) (ev : Event) (name ord : string) (s : State) :
  uidOf usr = Some uid →
  truthy (userRatings s !! ratingKey pid ord) = false →
  let failed := (handleProductRating usr refs pid r ev name ord Rejected s).2 in
  ∀ refs' r' ev' name',
    let again := handleProductRating_begin usr refs' pid r' ev' name' ord failed in
    again.2 = Some (mkSubmission pid r' name' ord uid refs')
    ∧ calls again.1.2 = (calls failed ++ [UpdateProductRating pid r' uid ord])%list
    ∧ userRatings again.1.2 !! ratingKey pid ord = Some r'
    ∧ productRatingLoading again.1.2 = mkLoading ord pid.
Proof.
  intros Huid Hfree failed refs' r' ev' name' again.
  assert (truthy (userRatings failed !! ratingKey pid ord) = false) as Hfree'.
  { subst failed. unfold handleProductRating.
    rewrite (handleProductRating_begin_started _ _ _ _ _ _ _ _ _ Huid Hfree).
    simpl. unfold sub_ratingKey. simpl. by rewrite lookup_delete_eq. }
  subst again.
  rewrite (handleProductRating_begin_started _ _ _ _ _ _ _ _ _ Huid Hfree').
  simpl. split_and!; try done. apply lookup_insert_eq.
Qed.

Lemma resubmission_after_failure_witness :
  (handleProductRating_begin (Some "u") [] "p" 5%Z freshEvent "Tea" "N-1"
     (handleProductRating (Some "u") [] "p" 4%Z freshEvent "Tea" "N-1" Rejected
        initialState).2).2
  = Some (mkSubmission "p" 5%Z "Tea" "N-1" "u" []).
Proof.
  destruct (resubmission_after_failure (Some "u") "u" [] "p" 4%Z freshEvent "Tea" "N-1"
              initialState eq_refl eq_refl [] 5%Z freshEvent "Tea") as [Hsub _].
  exact Hsub.
Defined.

(** X5: two submissions under way at once, for pairs with different keys,
    do not disturb each other's rating: when the first one settles, by
    success or by failure, the optimistic rating of the second is still in
    the map, the first pair has its own outcome, and the in-flight marker
    is cleared although the second is still awaited. *)
Theorem concurrent_submissions_independent
    (usr : option string) (uid : string) (refs : list ItemRef)
    (pidA pidB : string) (rA rB : Z) (evA evB : Event)
    (nameA nameB ordA ordB : string) (writtenA : settled unit) (s : State) :
  uidOf usr = Some uid →
  ratingKey pidA ordA ≠ ratingKey pidB ordB →
  truthy (userRatings s !! ratingKey pidA ordA) = false →
  truthy (userRatings s !! ratingKey pidB ordB) = false →
  let sA := (handleProductRating_begin usr refs pidA rA evA nameA ordA s).1.2 in
  let beginB := handleProductRating_begin usr refs pidB rB evB nameB ordB sA in
  let s' := handleProductRating_settle (mkSubmission pidA rA nameA ordA uid refs)
              writtenA beginB.1.2 in
  beginB.2 = Some (mkSubmission pidB rB nameB ordB uid refs)
  ∧ productRatingLoading beginB.1.2 = mkLoading ordB pidB
  ∧ userRatings s' !! ratingKey pidB ordB = Some rB
  ∧ userRatings s' !! ratingKey pidA ordA
    = match writtenA with Fulfilled _ => Some rA | Rejected => None end
  ∧ productRatingLoading s' = noLoading.
Proof.
  intros Huid Hkeys HfreeA HfreeB sA beginB s'.
  assert (truthy (userRatings sA !! ratingKey pidB ordB) = false) as HfreeB'.
  { subst sA. rewrite (handleProductRating_begin_started _ _ _ _ _ _ _ _ _ Huid HfreeA).
    simpl. by rewrite lookup_insert_ne. }
  assert (userRatings sA !! ratingKey pidA ordA = Some rA) as HA.
  { subst sA. rewrite (handleProductRating_begin_started _ _ _ _ _ _ _ _ _ Huid HfreeA).
    simpl. apply lookup_insert_eq. }
  subst s' beginB.
  rewrite (handleProductRating_begin_started _ _ _ _ _ _ _ _ _ Huid HfreeB').
  split_and!; try done;
    destruct writtenA as [u|]; simpl; unfold sub_ratingKey; simpl;
    by simplify_map_eq.
Qed.

Lemma concurrent_submissions_independent_witness :
  userRatings
    (handleProductRating_settle (mkSubmission "p" 4%Z "Tea" "N-1" "u" []) Rejected
       (handleProductRating_begin (Some "u") [] "q" 3%Z freshEvent "Rice" "N-1"
          (handleProductRating_begin (Some "u") [] "p" 4%Z freshEvent "Tea" "N-1"
             initialState).1.2).1.2)
    !! ratingKey "q" "N-1" = Some 3%Z.
Proof.
  destruct (concurrent_submissions_independent (Some "u") "u" [] "p" "q" 4%Z 3%Z
              freshEvent freshEvent "Tea" "Rice" "N-1" "N-1" Rejected initialState)
    as (_ & _ & HB & _).
  - reflexivity.
  - discriminate.
  - reflexivity.
  - reflexivity.
  - exact HB.
Defined.

(** X6: every run of [handleProductRating], whichever branch it takes,
    stops the propagation of the tap and prevents its default action, and
    issues the remote write at most once: exactly once, for the submitted
    product, value, user and order, when a user is signed in and the pair
    has no non-zero rating, followed by the invalidation of the product
    query if the write succeeds; and no call at all otherwise. *)
Theorem handleProductRating_event_and_calls
    (usr : option string) (refs : list ItemRef) (pid : string) (r : Z)
    (ev : Event) (name ord : string) (written : settled unit) (s : State) :
  let res := handleProductRating usr refs pid r ev name ord written s in
  propagationStopped res.1 = true
  ∧ defaultPrevented res.1 = true
  ∧ calls res.2
    = (calls s
       ++ match uidOf usr with
          | Some uid =>
              if truthy (userRatings s !! ratingKey pid ord) then []
              else UpdateProductRating pid r uid ord
                   :: match written with
                      | Fulfilled _ => [InvalidateQueries refs]
                      | Rejected => []
                      end
          | None => []
          end)%list.
Proof.
  intros res. subst res. unfold handleProductRating.
  destruct (uidOf usr) as [uid|] eqn:Huid.
  - destruct (truthy (userRatings s !! ratingKey pid ord)) eqn:Hrated.
    + destruct (handleProductRating_begin_rated usr refs pid r ev name ord s Hrated)
        as (t & -> & _).
      simpl. by rewrite app_nil_r.
    + rewrite (handleProductRating_begin_started _ _ _ _ _ _ _ _ _ Huid Hrated).
      destruct written as [u|]; simpl; by rewrite <- ?app_assoc.
  - rewrite (handleProductRating_begin_unauthenticated _ _ _ _ _ _ _ _ Huid).
    simpl. by rewrite app_nil_r.
Qed.

(** X7: the rating section keeps its parts in step. Whenever it is
    rendered, the stars are read-only exactly when they have no change
    handler and exactly when the "You rated" caption is shown; the caption
    then shows the non-zero value that the stars show, and the stars show
    0 otherwise; the stars are disabled exactly when the saving line is
    shown; and a change handler is bound to the product and the order of
    its own line item. *)
Theorem ratingSection_consistent
    (pm : gmap string Product) (s : State) (order : Order) (item : OrderItem)
    (sec : RatingSection) :
  ratingSection pm s order item = Some sec →
  (readonly (stars sec) = true ↔ onRatingChange (stars sec) = None)
  ∧ (readonly (stars sec) = true ↔ is_Some (ratedCaption sec))
  ∧ (∀ v, ratedCaption sec = Some v → rating (stars sec) = v ∧ v ≠ 0%Z)
  ∧ (ratedCaption sec = None → rating (stars sec) = 0%Z)
  ∧ disabled (stars sec) = savingShown sec
  ∧ (∀ p n o, onRatingChange (stars sec) = Some (p, n, o) →
       p = productId item ∧ n = productName item ∧ o = orderNumber order).
Proof.
  unfold ratingSection.
  destruct (pm !! productId item); [|done].
  case_bool_decide; [|done].
  destruct (userRatings s !! ratingKey (productId item) (orderNumber order))
    as [v|] eqn:Hv; simpl.
  - case_bool_decide as Hnz; intros [= <-]; simpl;
      split_and!; try done;
      try (split; [eauto|done]); try (split; [done|by intros [? [=]]]);
      try (by intros ? [= <-]); try (by intros ??? [= <- <- <-]);
      try (intros _; destruct (decide (v = 0%Z)); [done|by destruct Hnz]).
  - intros [= <-]; simpl; split_and!; try done;
      try (split; [done|by intros [? [=]]]); try (by intros ??? [= <- <- <-]).
Qed.

Lemma ratingSection_consistent_witness :
  ∃ sec, ratingSection sampleProducts sampleSaving sampleOrder sampleItem = Some sec
         ∧ disabled (stars sec) = savingShown sec.
Proof.
  eexists. split; [reflexivity|].
  eapply (ratingSection_consistent sampleProducts sampleSaving sampleOrder sampleItem).
  reflexivity.
Defined.

(** X8: the success branch adds exactly one success notice and leaves the
    rating map as it finds it. So when the map still holds the submitted
    non-zero value, as it does when nothing settles between the tap and
    the success, the control of the pair, in a delivered order whose
    product is loaded, shows that value, is read-only with the "You rated"
    caption and is not interactive; but when a rating batch has meanwhile
    dropped the key of the pair, the control is interactive again although
    the success notice is shown. *)
Theorem submission_success_shows_rating
    (usr : option string) (uid : string) (refs : list ItemRef) (pid : string)
    (r : Z) (ev : Event) (name ord : string) (s : State)
    (pm : gmap string Product) (order : Order) (item : OrderItem) :
  uidOf usr = Some uid →
  truthy (userRatings s !! ratingKey pid ord) = false →
  r ≠ 0%Z →
  productId item = pid → orderNumber order = ord →
  status order = "delivered" → is_Some (pm !! pid) →
  let shown s' :=
    (∃ sec, ratingSection pm s' order item = Some sec
            ∧ rating (stars sec) = r ∧ readonly (stars sec) = true
            ∧ ratedCaption sec = Some r)
    ∧ interactive pm s' order item = false in
  (∀ s1,
     let s' := handleProductRating_settle (mkSubmission pid r name ord uid refs)
                 (Fulfilled ()) s1 in
     toasts s' = (toasts s1 ++ [ToastSuccess (thanksMessage name r)])%list
     ∧ userRatings s' = userRatings s1
     ∧ (userRatings s1 !! ratingKey pid ord = Some r → shown s')
     ∧ (userRatings s1 !! ratingKey pid ord = None → pid ≠ "" ∨ ord ≠ "" →
        interactive pm s' order item = true))
  ∧ (let s' := (handleProductRating usr refs pid r ev name ord (Fulfilled ()) s).2 in
     toasts s' = (toasts s ++ [ToastSuccess (thanksMessage name r)])%list
     ∧ shown s').
Proof.
  intros Huid Hfree Hr Hpid Hord Hst [prod Hprod] shown.
  pose proof (truthy_Some_nonzero r Hr) as Htr.
  assert (∀ s', userRatings s' !! ratingKey pid ord = Some r → shown s') as Hshown.
  { intros s' Hkey. subst shown. simpl. split.
    - unfold ratingSection. rewrite Hpid, Hord, Hprod, Hkey, Htr.
      rewrite bool_decide_eq_true_2 by done. eexists. split; [done|]. by simpl.
    - unfold interactive, ratingSection. rewrite Hpid, Hord, Hprod, Hkey, Htr.
      by rewrite bool_decide_eq_true_2 by done. }
  split.
  - intros s1 s'. subst s'. rewrite handleProductRating_settle_Fulfilled.
    split_and!; try done.
    + intros Hkey. by apply Hshown.
    + intros Hkey Hne. unfold interactive, ratingSection. simpl.
      rewrite Hpid, Hord, Hprod, Hkey. rewrite bool_decide_eq_true_2 by done. simpl.
      rewrite isSaving_noLoading by (rewrite Hpid, Hord; done). done.
  - simpl. split.
    + unfold handleProductRating.
      by rewrite (handleProductRating_begin_started _ _ _ _ _ _ _ _ _ Huid Hfree).
    + apply Hshown. unfold handleProductRating.
      rewrite (handleProductRating_begin_started _ _ _ _ _ _ _ _ _ Huid Hfree).
      simpl. apply lookup_insert_eq.
Qed.

Lemma submission_success_shows_rating_witness :
  interactive sampleProducts sampleAfterSuccess sampleOrder sampleItem = false
  ∧ interactive sampleProducts
      (handleProductRating_settle (mkSubmission "p" 4%Z "Tea" "N-1" "u" [("p", "N-1")])
         (Fulfilled ())
         (loadUserRatings sampleGetRatingNone (Some "u") [("p", "N-1")] sampleSaving))
      sampleOrder sampleItem = true.
Proof.
  assert (4 ≠ 0)%Z as Hr by lia.
  assert (is_Some (sampleProducts !! "p")) as Hp by (by exists (mkProduct "p")).
  destruct (submission_success_shows_rating (Some "u") "u" [("p", "N-1")] "p" 4%Z
              freshEvent "Tea" "N-1" initialState sampleProducts sampleOrder sampleItem
              eq_refl eq_refl Hr eq_refl eq_refl eq_refl Hp) as (Hany & _ & _ & Hint).
  split; [exact Hint|].
  destruct (Hany (loadUserRatings sampleGetRatingNone (Some "u") [("p", "N-1")]
                    sampleSaving)) as (_ & _ & _ & Hopen).
  apply Hopen; [reflexivity|by left].
Defined.

(** ** The batches *)

(** X9: a rating batch issues exactly one rating lookup per reference of
    the list, for the signed-in user and in the order of the list, without
    removing duplicates; when nobody is signed in or the list is empty it
    issues none and leaves the whole state as it was. *)
Theorem loadUserRatings_lookups
    (getR : string → string → string → settled (option Z))
    (usr : option string) (refs : list ItemRef) (s : State) :
  (∀ uid, uidOf usr = Some uid →
     calls (loadUserRatings getR usr refs s)
     = (calls s ++ ((λ ref, GetUserProductRating uid ref.1 ref.2) <$> refs))%list)
  ∧ (uidOf usr = None ∨ refs = [] → loadUserRatings getR usr refs s = s).
Proof.
  split.
  - intros uid Huid. unfold loadUserRatings. rewrite Huid.
    case_bool_decide as Hlen.
    { destruct refs; [|done]. simpl. by rewrite app_nil_r. }
    assert (ratingLookups uid refs
            = (λ ref, GetUserProductRating uid ref.1 ref.2) <$> refs) as Heq.
    { unfold ratingLookups. apply list_fmap_ext. by intros ? [??] ?. }
    destruct (promise_all _); simpl; by rewrite Heq.
  - intros [Hnone| ->]; unfold loadUserRatings.
    + by rewrite Hnone.
    + by destruct (uidOf usr).
Qed.

Lemma loadUserRatings_lookups_witness :
  calls (loadUserRatings sampleGetRating (Some "u") sampleRefs initialState)
  = [GetUserProductRating "u" "p" "N-1"; GetUserProductRating "u" "q" "N-1"]
  ∧ loadUserRatings sampleGetRating None sampleRefs initialState = initialState.
Proof.
  destruct (loadUserRatings_lookups sampleGetRating (Some "u") sampleRefs initialState)
    as [Hcalls _].
  destruct (loadUserRatings_lookups sampleGetRating None sampleRefs initialState)
    as [_ Hnone].
  split; [exact (Hcalls "u" eq_refl) | apply Hnone; by left].
Defined.

Lemma productMap_foldl_lookup (ps : list Product) (m : gmap string Product)
    (k : string) (p : Product) :
  foldl (λ m p, <[product_id p := p]> m) m ps !! k = Some p →
  m !! k = Some p ∨ (p ∈ ps ∧ product_id p = k).
Proof.
  revert m. induction ps as [|q ps IH]; intros m; simpl; [by left|].
  intros [Hm|[Hin Hk]]%IH.
  - destruct (decide (product_id q = k)) as [<-|Hne].
    + rewrite lookup_insert_eq in Hm. simplify_eq. right. split; [by left|done].
    + rewrite lookup_insert_ne in Hm by done. by left.
  - right. split; [by right|done].
Qed.

(** X10: the product map never files a product under a foreign id: an id
    has an entry exactly when a fetched product has that id, and the entry
    found is a fetched product with that id. *)
Theorem productMap_lookup (ps : list Product) (k : string) :
  (is_Some (productMap ps !! k) ↔ ∃ p, p ∈ ps ∧ product_id p = k)
  ∧ (∀ p, productMap ps !! k = Some p → p ∈ ps ∧ product_id p = k).
Proof.
  split.
  - rewrite productMap_is_Some, list_elem_of_fmap. naive_solver.
  - intros p [Hk|?]%productMap_foldl_lookup; [|done].
    by rewrite lookup_empty in Hk.
Qed.

(** ** The content area *)

Lemma truthyStr_true (e : option string) :
  truthyStr e = true ↔ ∃ m, e = Some m ∧ m ≠ "".
Proof.
  destruct e as [m|]; simpl.
  - rewrite negb_true_iff, bool_decide_eq_false. naive_solver.
  - naive_solver.
Qed.

Lemma length_zero_nil {A} (l : list A) : length l = 0 ↔ l = [].
Proof. by destruct l. Qed.

(** X11: the error view is shown exactly when the store holds a non-empty
    error and no initial load is running, whether or not orders are
    loaded; its text is then the store's error itself, so the generic
    fallback text is never displayed; and its "Try Again" button is
    disabled in the same states as the refresh button of the header. *)
Theorem error_view_shows_store_error (v : View) (msg : string) (dis : bool) :
  (content v = ErrorComponent msg dis
   ↔ error v = Some msg ∧ msg ≠ "" ∧ loading (page v) = false ∧ dis = refreshing v)
  ∧ (content v = ErrorComponent msg dis → headerRefreshDisabled v = dis).
Proof.
  assert (content v = ErrorComponent msg dis
          ↔ error v = Some msg ∧ msg ≠ "" ∧ loading (page v) = false
            ∧ dis = refreshing v) as Hiff.
  { unfold content. destruct (truthyStr (error v)) eqn:Herr; simpl.
    - apply truthyStr_true in Herr as (m & Hm & Hne).
      destruct (loading (page v)); simpl.
      + split; [|by intros (_ & _ & ? & _)].
        by destruct (bool_decide (length (orders v) = 0)).
      + unfold strOr. rewrite Hm. simpl.
        rewrite bool_decide_eq_false_2 by done. simpl.
        split.
        * by intros [= <- <-].
        * by intros ([= ->] & _ & _ & ->).
    - split.
      + by destruct (loading (page v)), (bool_decide (length (orders v) = 0)).
      + intros (Hm & Hne & _). rewrite Hm in Herr. simpl in Herr.
        by rewrite bool_decide_eq_false_2 in Herr by done. }
  split; [exact Hiff|].
  intros (_ & _ & Hl & ->)%Hiff. unfold headerRefreshDisabled.
  by rewrite Hl, orb_false_r.
Qed.

(** X12: what the content area shows otherwise. The skeleton cards are
    shown exactly while the initial load runs with no order loaded, even
    if the store still holds an error; the empty state exactly when no
    order is loaded, nothing is loading and there is no non-empty error;
    the list exactly when orders are loaded and either there is no
    non-empty error or the initial load is running. *)
Theorem content_views (v : View) :
  ((∃ n, content v = Skeletons n)
   ↔ loading (page v) = true ∧ orders v = [])
  ∧ (content v = Skeletons 5 ∨ ∀ n, content v ≠ Skeletons n)
  ∧ (content v = EmptyState
     ↔ orders v = [] ∧ loading (page v) = false ∧ truthyStr (error v) = false)
  ∧ (content v = OrderList
     ↔ orders v ≠ [] ∧ (truthyStr (error v) = false ∨ loading (page v) = true)).
Proof.
  unfold content. rewrite <- !length_zero_nil.
  destruct (decide (length (orders v) = 0)) as [Hlen|Hlen];
    rewrite ?(bool_decide_eq_true_2 _ Hlen), ?(bool_decide_eq_false_2 _ Hlen);
    destruct (truthyStr (error v)), (loading (page v)); simpl;
    split_and!;
    try (by left); try (right; by intros n);
    (split;
     [ intros H;
       first [by simplify_eq | by destruct H as [n H]; simplify_eq
             | split; [done|]; by (left + right)]
     | intros H; destruct_and?; try destruct_or?; simplify_eq; try done;
       by exists 5 ]).
Qed.

(** X13: below the cards of the list exactly one of the two blocks is
    shown: the load-more sentinel while more pages remain, the end marker
    once none remain; outside the list neither is shown. And while the end
    marker is shown, no observer notification triggers a load-more. *)
Theorem sentinel_or_end_marker (v : View) :
  (content v = OrderList →
     (is_Some (sentinelShown v) ∧ endMarkerShown v = false ∧ hasMore (page v) = true)
     ∨ (sentinelShown v = None ∧ endMarkerShown v = true ∧ hasMore (page v) = false))
  ∧ (content v ≠ OrderList → sentinelShown v = None ∧ endMarkerShown v = false)
  ∧ (endMarkerShown v = true → ∀ entries, notificationCalls (page v, entries) = []).
Proof.
  assert (endMarkerShown v = true → hasMore (page v) = false) as Hend.
  { unfold endMarkerShown, endOfResults. destruct (content v); try done.
    by destruct (hasMore (page v)). }
  split_and!.
  - intros Hlist. unfold sentinelShown, endMarkerShown. rewrite Hlist.
    assert (orders v ≠ []) as Hne by (by apply (content_views v) in Hlist as [? _]).
    unfold loadMoreTrigger, endOfResults.
    destruct (hasMore (page v)); simpl; [left; eauto|right].
    split_and!; try done. apply bool_decide_eq_true_2.
    destruct (orders v); [done|simpl; lia].
  - intros Hother. unfold sentinelShown, endMarkerShown.
    by destruct (content v).
  - intros Hshown%Hend entries. rewrite notificationCalls_firing.
    unfold firing, loadable. simpl. by rewrite Hshown, andb_false_r.
Qed.

Lemma sentinel_or_end_marker_witness :
  content (mkView sampleDistinct sampleLoadable false 2 None) = OrderList
  ∧ is_Some (sentinelShown (mkView sampleDistinct sampleLoadable false 2 None)).
Proof.
  split; [reflexivity|].
  destruct (sentinel_or_end_marker (mkView sampleDistinct sampleLoadable false 2 None))
    as [Hlist _].
  destruct (Hlist eq_refl) as [(Hs & _)|(_ & _ & Hmore)]; [exact Hs|discriminate Hmore].
Defined.



(** ** Payment line, delivery line and track row *)



Lemma replaceFirst_space (s : string) :
  String.length (replaceFirst underscore " " s) = String.length s
  ∧ countChar underscore (replaceFirst underscore " " s) = pred (countChar underscore s)
  ∧ (countChar underscore s = 0 → replaceFirst underscore " " s = s).
Proof.
  induction s as [|x s (IHlen & IHcount & IHid)]; [done|].
  cbn [replaceFirst countChar]. case_bool_decide as Hx.
  - split_and!; [done|done|]. simpl. lia.
  - cbn [String.length countChar]. rewrite (bool_decide_eq_false_2 _ Hx).
    split_and!; [by rewrite IHlen|done|]. simpl. intros Hs. by rewrite IHid.
Qed.

Lemma replaceFirst_split (r pre post : string) :
  countChar underscore pre = 0 →
  replaceFirst underscore r (pre ++ String underscore post) = pre ++ r ++ post.
Proof.
  induction pre as [|x pre IH]; intros Hpre.
  - reflexivity.
  - cbn [countChar] in Hpre. rewrite !append_cons. cbn [replaceFirst].
    case_bool_decide as Hx; [simpl in Hpre; lia|].
    rewrite IH; [done|]. simpl in Hpre. lia.
Qed.

(** X16: the payment method is shown with only its first underscore turned
    into a space: a method that reads [pre], an underscore and [post],
    with no underscore in [pre], is shown as [pre], a space and [post],
    whatever [post] holds, and a method without an underscore is shown as
    it is. So the text keeps its length, has one underscore less than the
    method (none less when there is none), and a method with several
    underscores keeps all but the first. *)
Theorem paymentMethodText_first_underscore (paymentMethod : string) :
  (∀ pre post, countChar underscore pre = 0 →
     paymentMethod = pre ++ "_" ++ post →
     paymentMethodText paymentMethod = pre ++ " " ++ post)
  ∧ (countChar underscore paymentMethod = 0 →
     paymentMethodText paymentMethod = paymentMethod)
  ∧ String.length (paymentMethodText paymentMethod) = String.length paymentMethod
  ∧ countChar underscore (paymentMethodText paymentMethod)
    = pred (countChar underscore paymentMethod)
  ∧ (2 ≤ countChar underscore paymentMethod →
     1 ≤ countChar underscore (paymentMethodText paymentMethod))%nat.
Proof.
  unfold paymentMethodText.
  destruct (replaceFirst_space paymentMethod) as (Hlen & Hcount & Hid).
  split_and!; try done.
  - intros pre post Hpre ->. by apply (replaceFirst_split " ").
  - rewrite Hcount. lia.
Qed.

Lemma paymentMethodText_first_underscore_witness :
  paymentMethodText "cash_on_delivery" = "cash on_delivery"
  ∧ (1 ≤ countChar underscore (paymentMethodText "cash_on_delivery"))%nat
  ∧ paymentMethodText "upi" = "upi".
Proof.
  destruct (paymentMethodText_first_underscore "cash_on_delivery")
    as (Hsplit & _ & _ & _ & Hmany).
  destruct (paymentMethodText_first_underscore "upi") as (_ & Hnone & _).
  split_and!.
  - apply (Hsplit "cash" "on_delivery"); reflexivity.
  - apply Hmany. vm_compute. lia.
  - apply Hnone. reflexivity.
Defined.

(** X17: the track row shows one of four texts, "Order Delivered",
    "Cancelled", "Refunded" or "Track Order"; unlike the status badge it
    never echoes an unknown status but shows "Track Order" for it, as for
    "placed"; and the delivery estimate is never shown together with
    "Order Delivered". *)
Theorem trackRowLabel_cases (st : string) (hasEstimate : bool) :
  trackRowLabel st ∈ ["Order Delivered"; "Cancelled"; "Refunded"; "Track Order"]
  ∧ (st ∉ sixStatuses → trackRowLabel st = "Track Order")
  ∧ (deliveryInfoShown hasEstimate st = true →
     hasEstimate = true ∧ trackRowLabel st ≠ "Order Delivered").
Proof.
  split_and!.
  - unfold trackRowLabel. case_bool_decide as Hd; [set_solver|].
    destruct (decide (st = "cancelled")) as [->|Hc]; [set_solver|].
    rewrite (bool_decide_eq_false_2 _ Hc). simpl.
    destruct (decide (st = "refunded")) as [->|Hr]; [set_solver|].
    rewrite (bool_decide_eq_false_2 _ Hr). set_solver.
  - unfold sixStatuses. intros Hout.
    repeat (apply not_elem_of_cons_1 in Hout as [? Hout]).
    unfold trackRowLabel. by rewrite !bool_decide_eq_false_2 by done.
  - unfold deliveryInfoShown. rewrite andb_true_iff, negb_true_iff.
    intros [-> Hd%bool_decide_eq_false]. split; [done|].
    unfold trackRowLabel. rewrite (bool_decide_eq_false_2 _ Hd).
    destruct (decide (st = "cancelled")) as [->|Hc]; [done|].
    rewrite (bool_decide_eq_false_2 _ Hc). simpl.
    destruct (decide (st = "refunded")) as [->|Hr]; [done|].
    by rewrite (bool_decide_eq_false_2 _ Hr).
Qed.

Lemma trackRowLabel_cases_witness :
  trackRowLabel "returned" = "Track Order"
  ∧ trackRowLabel "preparing" ≠ "Order Delivered".
Proof.
  destruct (trackRowLabel_cases "returned" false) as (_ & Hout & _).
  destruct (trackRowLabel_cases "preparing" true) as (_ & _ & Hshown).
  split.
  - apply Hout. apply (bool_decide_unpack ("returned" ∉ sixStatuses)). vm_compute. exact I.
  - apply Hshown. reflexivity.
Defined.

(** ** More on the batches and the clicks *)

Lemma foldl_insertRating_other rs (m : gmap string Z) (k : string) :
  (∀ pid ord v, (pid, ord, Some v) ∈ rs → ratingKey pid ord ≠ k) →
  foldl insertRating m rs !! k = m !! k.
Proof.
  revert m. induction rs as [|[[pid ord] r] rs IH]; intros m Hother; [done|].
  simpl. rewrite IH.
  - destruct r as [v|]; [|done]. apply lookup_insert_ne.
    apply (Hother pid ord v). by left.
  - intros pid' ord' v' Hin. apply (Hother pid' ord' v'). by right.
Qed.

(** X18: when several answers of a rating batch are filed under the same
    key, the last one that carries a rating wins: the map built from the
    answers holds, for the key of an answer with a rating, that rating,
    provided no later answer with a rating has the same key; what came
    before does not matter. *)
Theorem ratingsMap_last_wins
    (before after : list (string * string * option Z)) (pid ord : string) (v : Z) :
  (∀ pid' ord' v', (pid', ord', Some v') ∈ after →
     ratingKey pid' ord' ≠ ratingKey pid ord) →
  ratingsMap (before ++ (pid, ord, Some v) :: after) !! ratingKey pid ord = Some v.
Proof.
  intros Hlater. unfold ratingsMap. rewrite foldl_app. simpl.
  rewrite foldl_insertRating_other by done. apply lookup_insert_eq.
Qed.

Lemma ratingsMap_last_wins_witness :
  ratingsMap [("a_b", "c", Some 2%Z); ("a", "b_c", Some 5%Z); ("q", "c", None)]
    !! ratingKey "a" "b_c" = Some 5%Z.
Proof.
  apply (ratingsMap_last_wins [("a_b", "c", Some 2%Z)] [("q", "c", None)] "a" "b_c" 5%Z).
  intros pid' ord' v' Hin. vm_compute in Hin.
  apply elem_of_cons in Hin as [Hin|Hin]; [discriminate Hin|].
  by apply elem_of_nil in Hin.
Defined.

(** X19: the refresh button, the rating section and the track row shield
    everything above them: whatever click handlers the card or its
    ancestors might carry, a tap on one of these three runs only the
    handler of the tapped element. *)
Theorem nested_controls_shield_ancestors
    (order : Order) (t : CardTarget) (above : list Handler) (s : State) :
  t ≠ TapSummary →
  dispatch (handlersOnPath order t ++ above) freshEvent s = tap order t s.
Proof. intros Ht. by destruct t. Qed.

Lemma nested_controls_shield_ancestors_witness :
  dispatch (handlersOnPath sampleOrder TapRefresh ++ [handleTrackOrderClick "o1"])
    freshEvent initialState
  = tap sampleOrder TapRefresh initialState.
Proof.
  apply (nested_controls_shield_ancestors sampleOrder TapRefresh
           [handleTrackOrderClick "o1"] initialState).
  discriminate.
Defined.

Lemma productMap_lookup_witness :
  productMap [mkProduct "p"; mkProduct "q"] !! "q" = Some (mkProduct "q")
  ∧ mkProduct "q" ∈ [mkProduct "p"; mkProduct "q"].
Proof.
  split; [reflexivity|].
  destruct (productMap_lookup [mkProduct "p"; mkProduct "q"] "q") as [_ Hfound].
  by destruct (Hfound (mkProduct "q") eq_refl).
Defined.

Lemma error_view_shows_store_error_witness :
  content (mkView sampleDistinct sampleLoadable false 2 (Some "Network down"))
  = ErrorComponent "Network down" false.
Proof.
  apply (error_view_shows_store_error
           (mkView sampleDistinct sampleLoadable false 2 (Some "Network down"))
           "Network down" false).
  split_and!; [reflexivity|discriminate|reflexivity|reflexivity].
Defined.

Lemma content_views_witness :
  content (mkView [] (mkPagination false false true (Some "u")) false 0 (Some "old"))
  = Skeletons 5.
Proof.
  destruct (content_views
              (mkView [] (mkPagination false false true (Some "u")) false 0 (Some "old")))
    as (Hskel & [Hfive|Hnone] & _).
  - exact Hfive.
  - destruct (proj2 Hskel (conj eq_refl eq_refl)) as [n Hn]. by destruct (Hnone n).
Defined.
